(** * vnpy_portfoliostrategy: the two reference strategies

    A shallow embedding of
      - strategies/quadprog_strategy.py          (class QuadProgStrategy)
      - strategies/portfolio_mean_reversion.py   (class MeanReversionStrategy)
    and the properties their design document states about them.

    Conventions of the model.
      - A Python [float] is an exact rational ([Q]); comparisons are the
        boolean ones of the source.  Rounding and NaN are outside the model.
      - A Python [int] is a [Z].
      - A [dict] that the code iterates over ([bars], [signal_strength],
        [unit_weights]) is an insertion-ordered association list; a [dict]
        that is only indexed by key is a [gmap].
      - A method is a computation in the monad [M]: it reads and updates the
        strategy object, may raise a Python exception, and emits the calls it
        makes to its collaborators (the execution engine) as events. *)

From Stdlib Require Import QArith Qfield Lia ZArith.
From stdpp Require Import base option list gmap strings fin_maps.

Local Open Scope Q_scope.

(** ** Python numbers *)

Module Py.

(** [a > b], [a < b], [a <= b], [a >= b] on floats. *)
Definition gt (a b : Q) : bool := negb (Qle_bool a b).
Definition lt (a b : Q) : bool := negb (Qle_bool b a).
Definition le (a b : Q) : bool := Qle_bool a b.
Definition ge (a b : Q) : bool := Qle_bool b a.

(** The builtins [max(a, b)] and [min(a, b)]: the first argument is kept
    unless the second is strictly better. *)
Definition max (a b : Q) : Q := if gt b a then b else a.
Definition min (a b : Q) : Q := if lt b a then b else a.

(** The builtin [sum(xs)]: a left fold that starts at 0. *)
Definition sum (xs : list Q) : Q := fold_left Qplus xs 0.

(** [arr[-w:]] for a window [w >= 0]: the last [w] elements, all of them
    when [w] is 0 (as [-0] is [0]) or exceeds the length. *)
Definition tail_slice (w : nat) (xs : list Q) : list Q :=
  match w with
  | O => xs
  | _ => drop (length xs - w) xs
  end.

(** [numpy.ndarray.mean] of a non-empty array. *)
Definition mean (xs : list Q) : Q :=
  sum xs / inject_Z (Z.of_nat (length xs)).

(** Exceptions the code of the strategies can raise. *)
Inductive exn : Type :=
| KeyError (key : string)
| IndexError
| ZeroDivisionError
| ValueError.

Inductive outcome (A : Type) : Type :=
| Ok (a : A)
| Raise (e : exn).
Arguments Ok {A} a.
Arguments Raise {A} e.

(** Insertion-ordered dictionaries with string keys. *)
Definition dict (V : Type) : Type := list (string * V).

Definition keys {V} (d : dict V) : list string := d.*1.
Definition values {V} (d : dict V) : list V := d.*2.

Fixpoint get {V} (d : dict V) (k : string) : option V :=
  match d with
  | [] => None
  | (k', v) :: d' => if decide (k' = k) then Some v else get d' k
  end.

(** [d[k] = v]: overwrite in place, or append a new key at the end. *)
Fixpoint set {V} (d : dict V) (k : string) (v : V) : dict V :=
  match d with
  | [] => [(k, v)]
  | (k', v') :: d' =>
      if decide (k' = k) then (k', v) :: d' else (k', v') :: set d' k v
  end.

(** The invariant of a dictionary: its keys are pairwise distinct. *)
Definition wf {V} (d : dict V) : Prop := NoDup (keys d).

End Py.

Import Py.

(** ** Data delivered by the collaborators *)

Record BarData : Type := {
  open_price : Q;
  high_price : Q;
  low_price : Q;
  close_price : Q;
  volume : Q;
}.

(** [vnpy.trader.utility.ArrayManager], the indicator collaborator, seen
    through the four operations the strategies use. *)
Class ArrayManager (AM : Type) : Type := {
  update_bar : AM → BarData → AM;
  inited : AM → bool;
  (** [am.atr(n, array=True)] *)
  atr : AM → nat → list Q;
  (** [am.rsi(n)] *)
  rsi : AM → nat → Q;
}.

(** [ArrayManager()], a manager that has seen no bar yet. *)
Class NewArrayManager (AM : Type) : Type := new_array_manager : AM.

(** [vnpy.trader.constant.Direction] *)
Inductive Direction : Type := LONG | SHORT | NET.

(** [pandas], seen through the operations the strategies use on a price
    series ([S] is [pandas.Series], [F] the float it yields). *)
Class Pandas (S F : Type) : Type := {
  (** [series * w] *)
  scale : S → Q → S;
  (** [pd.concat(objs, axis=1).sum(axis=1)]; it refuses an empty list of
      objects with [ValueError]. *)
  concat_sum : list S → option S;
  (** [series.ewm(span=n).std().iloc[-1]]; [iloc[-1]] refuses an empty
      series with [IndexError]. *)
  ewm_std_last : Z → S → option F;
}.

(** Calls made to the execution engine and the user interface. *)
Inductive Event : Type :=
| EvSetTarget (vt_symbol : string) (target : Z)
| EvRebalance (bars : dict BarData)
| EvPutEvent
| EvWriteLog (msg : string)
| EvLoadBars (days : Z).

(** ** The strategy object *)

Record Settings : Type := {
  strategy_name : string;
  vt_symbols : list string;
  atr_window : nat;
  atr_ma_window : nat;
  rsi_window : nat;
  rsi_entry : Q;
  trailing_percent : Q;
  fixed_size : Z;
  lookback_var : Z;
}.

(** The attributes of [self].  The containers [atr_data], [atr_ma],
    [rsi_data], [intra_trade_high], [intra_trade_low] and the thresholds
    [rsi_buy], [rsi_sell] are used by [on_bars] of both classes but declared
    by neither; they are fields of the object all the same. *)
Record Strategy (AM S : Type) : Type := {
  settings : Settings;
  rsi_buy : Q;
  rsi_sell : Q;
  ams : gmap string AM;
  atr_data : gmap string Q;
  atr_ma : gmap string Q;
  rsi_data : gmap string Q;
  intra_trade_high : gmap string Q;
  intra_trade_low : gmap string Q;
  pos_data : gmap string Z;
  target_data : gmap string Z;
  signal_strength : dict Q;
  unit_weights : dict Q;
  daily_prices : gmap string S;
}.
Arguments settings {AM S} _.
Arguments rsi_buy {AM S} _.
Arguments rsi_sell {AM S} _.
Arguments ams {AM S} _.
Arguments atr_data {AM S} _.
Arguments atr_ma {AM S} _.
Arguments rsi_data {AM S} _.
Arguments intra_trade_high {AM S} _.
Arguments intra_trade_low {AM S} _.
Arguments pos_data {AM S} _.
Arguments target_data {AM S} _.
Arguments signal_strength {AM S} _.
Arguments unit_weights {AM S} _.
Arguments daily_prices {AM S} _.

Section Model.
Context {AM S : Type}.

Local Abbreviation self := (Strategy AM S).

(** *** Assignments to the attributes *)

Definition with_rsi_buy (v : Q) (st : self) : self :=
  {| settings := settings st; rsi_buy := v; rsi_sell := rsi_sell st;
     ams := ams st; atr_data := atr_data st; atr_ma := atr_ma st;
     rsi_data := rsi_data st; intra_trade_high := intra_trade_high st;
     intra_trade_low := intra_trade_low st; pos_data := pos_data st;
     target_data := target_data st; signal_strength := signal_strength st;
     unit_weights := unit_weights st; daily_prices := daily_prices st |}.

Definition with_rsi_sell (v : Q) (st : self) : self :=
  {| settings := settings st; rsi_buy := rsi_buy st; rsi_sell := v;
     ams := ams st; atr_data := atr_data st; atr_ma := atr_ma st;
     rsi_data := rsi_data st; intra_trade_high := intra_trade_high st;
     intra_trade_low := intra_trade_low st; pos_data := pos_data st;
     target_data := target_data st; signal_strength := signal_strength st;
     unit_weights := unit_weights st; daily_prices := daily_prices st |}.

Definition with_ams (v : gmap string AM) (st : self) : self :=
  {| settings := settings st; rsi_buy := rsi_buy st; rsi_sell := rsi_sell st;
     ams := v; atr_data := atr_data st; atr_ma := atr_ma st;
     rsi_data := rsi_data st; intra_trade_high := intra_trade_high st;
     intra_trade_low := intra_trade_low st; pos_data := pos_data st;
     target_data := target_data st; signal_strength := signal_strength st;
     unit_weights := unit_weights st; daily_prices := daily_prices st |}.

Definition with_atr_data (v : gmap string Q) (st : self) : self :=
  {| settings := settings st; rsi_buy := rsi_buy st; rsi_sell := rsi_sell st;
     ams := ams st; atr_data := v; atr_ma := atr_ma st;
     rsi_data := rsi_data st; intra_trade_high := intra_trade_high st;
     intra_trade_low := intra_trade_low st; pos_data := pos_data st;
     target_data := target_data st; signal_strength := signal_strength st;
     unit_weights := unit_weights st; daily_prices := daily_prices st |}.

Definition with_atr_ma (v : gmap string Q) (st : self) : self :=
  {| settings := settings st; rsi_buy := rsi_buy st; rsi_sell := rsi_sell st;
     ams := ams st; atr_data := atr_data st; atr_ma := v;
     rsi_data := rsi_data st; intra_trade_high := intra_trade_high st;
     intra_trade_low := intra_trade_low st; pos_data := pos_data st;
     target_data := target_data st; signal_strength := signal_strength st;
     unit_weights := unit_weights st; daily_prices := daily_prices st |}.

Definition with_rsi_data (v : gmap string Q) (st : self) : self :=
  {| settings := settings st; rsi_buy := rsi_buy st; rsi_sell := rsi_sell st;
     ams := ams st; atr_data := atr_data st; atr_ma := atr_ma st;
     rsi_data := v; intra_trade_high := intra_trade_high st;
     intra_trade_low := intra_trade_low st; pos_data := pos_data st;
     target_data := target_data st; signal_strength := signal_strength st;
     unit_weights := unit_weights st; daily_prices := daily_prices st |}.

Definition with_intra_trade_high (v : gmap string Q) (st : self) : self :=
  {| settings := settings st; rsi_buy := rsi_buy st; rsi_sell := rsi_sell st;
     ams := ams st; atr_data := atr_data st; atr_ma := atr_ma st;
     rsi_data := rsi_data st; intra_trade_high := v;
     intra_trade_low := intra_trade_low st; pos_data := pos_data st;
     target_data := target_data st; signal_strength := signal_strength st;
     unit_weights := unit_weights st; daily_prices := daily_prices st |}.

Definition with_intra_trade_low (v : gmap string Q) (st : self) : self :=
  {| settings := settings st; rsi_buy := rsi_buy st; rsi_sell := rsi_sell st;
     ams := ams st; atr_data := atr_data st; atr_ma := atr_ma st;
     rsi_data := rsi_data st; intra_trade_high := intra_trade_high st;
     intra_trade_low := v; pos_data := pos_data st;
     target_data := target_data st; signal_strength := signal_strength st;
     unit_weights := unit_weights st; daily_prices := daily_prices st |}.

Definition with_target_data (v : gmap string Z) (st : self) : self :=
  {| settings := settings st; rsi_buy := rsi_buy st; rsi_sell := rsi_sell st;
     ams := ams st; atr_data := atr_data st; atr_ma := atr_ma st;
     rsi_data := rsi_data st; intra_trade_high := intra_trade_high st;
     intra_trade_low := intra_trade_low st; pos_data := pos_data st;
     target_data := v; signal_strength := signal_strength st;
     unit_weights := unit_weights st; daily_prices := daily_prices st |}.

Definition with_unit_weights (v : dict Q) (st : self) : self :=
  {| settings := settings st; rsi_buy := rsi_buy st; rsi_sell := rsi_sell st;
     ams := ams st; atr_data := atr_data st; atr_ma := atr_ma st;
     rsi_data := rsi_data st; intra_trade_high := intra_trade_high st;
     intra_trade_low := intra_trade_low st; pos_data := pos_data st;
     target_data := target_data st; signal_strength := signal_strength st;
     unit_weights := v; daily_prices := daily_prices st |}.

Definition with_signal_strength (v : dict Q) (st : self) : self :=
  {| settings := settings st; rsi_buy := rsi_buy st; rsi_sell := rsi_sell st;
     ams := ams st; atr_data := atr_data st; atr_ma := atr_ma st;
     rsi_data := rsi_data st; intra_trade_high := intra_trade_high st;
     intra_trade_low := intra_trade_low st; pos_data := pos_data st;
     target_data := target_data st; signal_strength := v;
     unit_weights := unit_weights st; daily_prices := daily_prices st |}.

Definition with_daily_prices (v : gmap string S) (st : self) : self :=
  {| settings := settings st; rsi_buy := rsi_buy st; rsi_sell := rsi_sell st;
     ams := ams st; atr_data := atr_data st; atr_ma := atr_ma st;
     rsi_data := rsi_data st; intra_trade_high := intra_trade_high st;
     intra_trade_low := intra_trade_low st; pos_data := pos_data st;
     target_data := target_data st; signal_strength := signal_strength st;
     unit_weights := unit_weights st; daily_prices := v |}.

(** *** The monad of methods *)

Definition M (A : Type) : Type := self → outcome A * self * list Event.

#[export] Instance M_ret : MRet M := λ A a st, (Ok a, st, []).

#[export] Instance M_bind : MBind M := λ A B f m st,
  match m st with
  | (Ok a, st1, ev1) =>
      match f a st1 with
      | (r, st2, ev2) => (r, st2, ev1 ++ ev2)
      end
  | (Raise e, st1, ev1) => (Raise e, st1, ev1)
  end.

Definition read {A} (f : self → A) : M A := λ st, (Ok (f st), st, []).
Definition modify (f : self → self) : M unit := λ st, (Ok tt, f st, []).
Definition emit (e : Event) : M unit := λ st, (Ok tt, st, [e]).
Definition raise {A} (e : exn) : M A := λ st, (Raise e, st, []).

(** [d[k]] on a dictionary that raises [KeyError] for an absent key. *)
Definition index {V} (d : gmap string V) (k : string) : M V :=
  match d !! k with
  | Some v => mret v
  | None => raise (KeyError k)
  end.

(** [arr[-1]] *)
Definition last_item (xs : list Q) : M Q :=
  match last xs with
  | Some x => mret x
  | None => raise IndexError
  end.

(** How a loop body ends: fall through to the next iteration, or leave the
    enclosing method by [return]. *)
Inductive flow : Type := Continue | Return.

Fixpoint for_each {A} (xs : list A) (body : A → M flow) : M flow :=
  match xs with
  | [] => mret Continue
  | x :: xs' =>
      f ← body x;
      match f with
      | Continue => for_each xs' body
      | Return => mret Return
      end
  end.

End Model.

(** ** The base class [StrategyTemplate] *)

Module StrategyTemplate.
Section Methods.
Context {AM S : Type}.

Local Abbreviation self := (Strategy AM S).

(** Modelled from the spec: [StrategyTemplate.get_pos] is not among the
    sources; the position of an instrument is a signed integer owned by the
    execution engine, read-only here, 0 for an instrument never traded. *)
Definition get_pos (st : self) (vt_symbol : string) : Z :=
  default 0%Z (pos_data st !! vt_symbol).

(** Modelled from the spec: [StrategyTemplate.get_target] is not among the
    sources; the target of an instrument is a signed integer, 0 until set. *)
Definition get_target (st : self) (vt_symbol : string) : Z :=
  default 0%Z (target_data st !! vt_symbol).

(** Modelled from the spec: [StrategyTemplate.set_target] is not among the
    sources; it records the target of the instrument and nothing else
    (diffing against the position is left to the rebalance). *)
Definition set_target (vt_symbol : string) (target : Z) : M (AM:=AM) (S:=S) unit :=
  modify (λ st, with_target_data (<[vt_symbol := target]> (target_data st)) st);;
  emit (EvSetTarget vt_symbol target).

(** Modelled from the spec: [StrategyTemplate.rebalance_portfolio],
    [put_event], [write_log] and [load_bars] are not among the sources; they
    hand over to the execution engine, the user interface, the log and the
    history loader.  None of them assigns an attribute modelled here; the
    history that [load_bars] asks for reaches the strategy as further calls
    of [on_bars]. *)
Definition rebalance_portfolio (bars : dict BarData) : M (AM:=AM) (S:=S) unit :=
  emit (EvRebalance bars).

Definition put_event : M (AM:=AM) (S:=S) unit := emit EvPutEvent.

Definition write_log (msg : string) : M (AM:=AM) (S:=S) unit :=
  emit (EvWriteLog msg).

Definition load_bars (days : Z) : M (AM:=AM) (S:=S) unit :=
  emit (EvLoadBars days).

(** Modelled from the spec: the per-instrument containers [atr_data],
    [atr_ma], [rsi_data], [intra_trade_high] and [intra_trade_low] are
    declared outside the sources; each holds one entry per instrument,
    pre-populated with the neutral default 0. *)
Definition item (d : gmap string Q) (vt_symbol : string) : Q :=
  default 0 (d !! vt_symbol).

End Methods.
End StrategyTemplate.

(** ** strategies/quadprog_strategy.py *)

Module QuadProgStrategy.
Import StrategyTemplate.
Section Methods.
Context {AM S F : Type} `{!ArrayManager AM} `{!Pandas S F}.

Local Abbreviation self := (Strategy AM S).
Local Abbreviation M := (M (AM:=AM) (S:=S)).

(** The class attribute [price_add]. *)
Definition price_add : Q := 10.

(** Body of the loop of [__init__]. *)
Definition new_manager `{!NewArrayManager AM} (vt_symbol : string) : M flow :=
  modify (λ st, with_ams (<[vt_symbol := new_array_manager]> (ams st)) st);;
  mret Continue.

(** The constructor, from the object as [StrategyTemplate.__init__] leaves
    it (name, instruments and parameters stored).  The attributes
    [emacd_data], [last_tick_time] and [pbg] are read by no method modelled
    here and are left out. *)
Definition __init__ `{!NewArrayManager AM} : M unit :=
  modify (with_signal_strength []);;
  modify (with_unit_weights []);;
  modify (with_daily_prices ∅);;
  modify (with_ams ∅);;
  names ← read (λ st, vt_symbols (settings st));
  for_each names new_manager;;
  mret tt.

Definition on_init : M unit :=
  load_bars 10;;
  name ← read (λ st, strategy_name (settings st));
  write_log ("Portfolio Strategy " +:+ name +:+ " initialized").

Definition on_start : M unit := write_log "策略启动".

Definition on_stop : M unit := write_log "策略停止".

(** [strength / total_strength] *)
Definition divide (a b : Q) : M Q :=
  if Qeq_bool b 0 then raise ZeroDivisionError else mret (a / b).

(** Body of the loop of [calculate_unit_weights]. *)
Definition unit_weight_item (total_strength : Q) (p : string * Q) : M flow :=
  let '(vt_symbol, strength) := p in
  w ← divide strength total_strength;
  modify (λ st, with_unit_weights (Py.set (unit_weights st) vt_symbol w) st);;
  mret Continue.

Definition calculate_unit_weights : M (dict Q) :=
  strengths ← read signal_strength;
  let total_strength := Py.sum (values strengths) in
  modify (with_unit_weights []);;
  for_each strengths (unit_weight_item total_strength);;
  read unit_weights.

(** The list built by the loop of [calculate_unit_var]. *)
Fixpoint portfolio_return_list (strengths : dict Q) : M (list S) :=
  match strengths with
  | [] => mret []
  | (vt_symbol, strength) :: rest =>
      prices ← (d ← read daily_prices; index d vt_symbol);
      w ← (u ← read unit_weights;
           match Py.get u vt_symbol with
           | Some w => mret w
           | None => raise (KeyError vt_symbol)
           end);
      tl ← portfolio_return_list rest;
      mret (scale prices w :: tl)
  end.

Definition calculate_unit_var : M F :=
  strengths ← read signal_strength;
  l ← portfolio_return_list strengths;
  portfolio_return ←
    match concat_sum l with
    | Some s => mret s
    | None => raise ValueError
    end;
  span ← read (λ st, lookback_var (settings st));
  match ewm_std_last span portfolio_return with
  | Some unit_var => mret unit_var
  | None => raise IndexError
  end.

(** Body of the first loop of [on_bars]. *)
Definition on_bars_update (p : string * BarData) : M flow :=
  let '(vt_symbol, bar) := p in
  am ← (a ← read ams; index a vt_symbol);
  modify (λ st, with_ams (<[vt_symbol := update_bar am bar]> (ams st)) st);;
  mret Continue.

(** Body of the second loop of [on_bars]. *)
Definition on_bars_symbol (p : string * BarData) : M flow :=
  let '(vt_symbol, bar) := p in
  am ← (a ← read ams; index a vt_symbol);
  if negb (inited am) then mret Return else
  cfg ← read settings;
  let atr_array := atr am (atr_window cfg) in
  atr_last ← last_item atr_array;
  modify (λ st, with_atr_data (<[vt_symbol := atr_last]> (atr_data st)) st);;
  modify (λ st, with_atr_ma
    (<[vt_symbol := mean (tail_slice (atr_ma_window cfg) atr_array)]> (atr_ma st)) st);;
  modify (λ st, with_rsi_data
    (<[vt_symbol := rsi am (rsi_window cfg)]> (rsi_data st)) st);;
  current_pos ← read (λ st, get_pos st vt_symbol);
  (if (current_pos =? 0)%Z then
     modify (λ st, with_intra_trade_high
       (<[vt_symbol := high_price bar]> (intra_trade_high st)) st);;
     modify (λ st, with_intra_trade_low
       (<[vt_symbol := low_price bar]> (intra_trade_low st)) st);;
     st ← read id;
     if gt (item (atr_data st) vt_symbol) (item (atr_ma st) vt_symbol) then
       if gt (item (rsi_data st) vt_symbol) (rsi_buy st) then
         set_target vt_symbol (fixed_size cfg)
       else if lt (item (rsi_data st) vt_symbol) (rsi_sell st) then
         set_target vt_symbol (- fixed_size cfg)
       else
         set_target vt_symbol 0
     else mret tt
   else if (current_pos >? 0)%Z then
     modify (λ st, with_intra_trade_high
       (<[vt_symbol := Py.max (item (intra_trade_high st) vt_symbol) (high_price bar)]>
          (intra_trade_high st)) st);;
     modify (λ st, with_intra_trade_low
       (<[vt_symbol := low_price bar]> (intra_trade_low st)) st);;
     long_stop ← read (λ st,
       item (intra_trade_high st) vt_symbol * (1 - trailing_percent cfg / 100));
     if le (close_price bar) long_stop then set_target vt_symbol 0 else mret tt
   else if (current_pos <? 0)%Z then
     modify (λ st, with_intra_trade_low
       (<[vt_symbol := Py.min (item (intra_trade_low st) vt_symbol) (low_price bar)]>
          (intra_trade_low st)) st);;
     modify (λ st, with_intra_trade_high
       (<[vt_symbol := high_price bar]> (intra_trade_high st)) st);;
     short_stop ← read (λ st,
       item (intra_trade_low st) vt_symbol * (1 + trailing_percent cfg / 100));
     if ge (close_price bar) short_stop then set_target vt_symbol 0 else mret tt
   else mret tt);;
  mret Continue.

Definition on_bars (bars : dict BarData) : M unit :=
  for_each bars on_bars_update;;
  f ← for_each bars on_bars_symbol;
  match f with
  | Return => mret tt
  | Continue => rebalance_portfolio bars;; put_event
  end.

Definition on_window_bars (bars : dict BarData) : M unit := mret tt.

Definition calculate_price (vt_symbol : string) (direction : Direction)
    (reference : Q) : Q :=
  match direction with
  | LONG => reference + price_add
  | _ => reference - price_add
  end.

End Methods.
End QuadProgStrategy.

(** ** strategies/portfolio_mean_reversion.py *)

Module MeanReversionStrategy.
Import StrategyTemplate.
Section Methods.
Context {AM S F : Type} `{!ArrayManager AM}.

Local Abbreviation self := (Strategy AM S).
Local Abbreviation M := (M (AM:=AM) (S:=S)).

(** The class attribute [price_add]. *)
Definition price_add : Q := 10.

(** Body of the loop of [__init__]. *)
Definition new_manager `{!NewArrayManager AM} (vt_symbol : string) : M flow :=
  modify (λ st, with_ams (<[vt_symbol := new_array_manager]> (ams st)) st);;
  mret Continue.

(** The constructor, from the object as [StrategyTemplate.__init__] leaves
    it.  This class creates neither [unit_weights] nor [daily_prices]. *)
Definition __init__ `{!NewArrayManager AM} : M unit :=
  modify (with_signal_strength []);;
  modify (with_ams ∅);;
  names ← read (λ st, vt_symbols (settings st));
  for_each names new_manager;;
  mret tt.

Definition on_init : M unit :=
  name ← read (λ st, strategy_name (settings st));
  write_log ("Portfolio Strategy " +:+ name +:+ " initialized");;
  modify (λ st, with_rsi_buy (50 + rsi_entry (settings st)) st);;
  modify (λ st, with_rsi_sell (50 - rsi_entry (settings st)) st);;
  load_bars 10.

Definition on_start : M unit := write_log "策略启动".

Definition on_stop : M unit := write_log "策略停止".

(** The loop only passes; the method falls off its end, which in Python
    returns [None]. *)
Definition calculate_unit_var : M (option F) :=
  strengths ← read signal_strength;
  for_each strengths (λ '(vt_symbol, target), mret Continue);;
  mret None.

(** Body of the first loop of [on_bars]. *)
Definition on_bars_update (p : string * BarData) : M flow :=
  let '(vt_symbol, bar) := p in
  am ← (a ← read ams; index a vt_symbol);
  modify (λ st, with_ams (<[vt_symbol := update_bar am bar]> (ams st)) st);;
  mret Continue.

(** Body of the second loop of [on_bars]. *)
Definition on_bars_symbol (p : string * BarData) : M flow :=
  let '(vt_symbol, bar) := p in
  am ← (a ← read ams; index a vt_symbol);
  if negb (inited am) then mret Return else
  cfg ← read settings;
  let atr_array := atr am (atr_window cfg) in
  atr_last ← last_item atr_array;
  modify (λ st, with_atr_data (<[vt_symbol := atr_last]> (atr_data st)) st);;
  modify (λ st, with_atr_ma
    (<[vt_symbol := mean (tail_slice (atr_ma_window cfg) atr_array)]> (atr_ma st)) st);;
  modify (λ st, with_rsi_data
    (<[vt_symbol := rsi am (rsi_window cfg)]> (rsi_data st)) st);;
  current_pos ← read (λ st, get_pos st vt_symbol);
  (if (current_pos =? 0)%Z then
     modify (λ st, with_intra_trade_high
       (<[vt_symbol := high_price bar]> (intra_trade_high st)) st);;
     modify (λ st, with_intra_trade_low
       (<[vt_symbol := low_price bar]> (intra_trade_low st)) st);;
     st ← read id;
     if gt (item (atr_data st) vt_symbol) (item (atr_ma st) vt_symbol) then
       if gt (item (rsi_data st) vt_symbol) (rsi_buy st) then
         set_target vt_symbol (fixed_size cfg)
       else if lt (item (rsi_data st) vt_symbol) (rsi_sell st) then
         set_target vt_symbol (- fixed_size cfg)
       else
         set_target vt_symbol 0
     else mret tt
   else if (current_pos >? 0)%Z then
     modify (λ st, with_intra_trade_high
       (<[vt_symbol := Py.max (item (intra_trade_high st) vt_symbol) (high_price bar)]>
          (intra_trade_high st)) st);;
     modify (λ st, with_intra_trade_low
       (<[vt_symbol := low_price bar]> (intra_trade_low st)) st);;
     long_stop ← read (λ st,
       item (intra_trade_high st) vt_symbol * (1 - trailing_percent cfg / 100));
     if le (close_price bar) long_stop then set_target vt_symbol 0 else mret tt
   else if (current_pos <? 0)%Z then
     modify (λ st, with_intra_trade_low
       (<[vt_symbol := Py.min (item (intra_trade_low st) vt_symbol) (low_price bar)]>
          (intra_trade_low st)) st);;
     modify (λ st, with_intra_trade_high
       (<[vt_symbol := high_price bar]> (intra_trade_high st)) st);;
     short_stop ← read (λ st,
       item (intra_trade_low st) vt_symbol * (1 + trailing_percent cfg / 100));
     if ge (close_price bar) short_stop then set_target vt_symbol 0 else mret tt
   else mret tt);;
  mret Continue.

Definition on_bars (bars : dict BarData) : M unit :=
  for_each bars on_bars_update;;
  f ← for_each bars on_bars_symbol;
  match f with
  | Return => mret tt
  | Continue => rebalance_portfolio bars;; put_event
  end.

Definition calculate_price (vt_symbol : string) (direction : Direction)
    (reference : Q) : Q :=
  match direction with
  | LONG => reference + price_add
  | _ => reference - price_add
  end.

End Methods.
End MeanReversionStrategy.

(** ** What a slice does to one instrument *)

(** The attributes shared by all instruments. *)
Definition globals {AM S} (st : Strategy AM S) :=
  (settings st, rsi_buy st, rsi_sell st, ams st, pos_data st,
   signal_strength st, unit_weights st, daily_prices st).

(** The entries of one instrument in the per-instrument containers. *)
Record entries : Type := {
  e_atr : option Q;
  e_atr_ma : option Q;
  e_rsi : option Q;
  e_high : option Q;
  e_low : option Q;
  e_target : option Z;
}.

Definition locals {AM S} (vt_symbol : string) (st : Strategy AM S) : entries := {|
  e_atr := atr_data st !! vt_symbol;
  e_atr_ma := atr_ma st !! vt_symbol;
  e_rsi := rsi_data st !! vt_symbol;
  e_high := intra_trade_high st !! vt_symbol;
  e_low := intra_trade_low st !! vt_symbol;
  e_target := target_data st !! vt_symbol;
|}.

(** The two ways the position logic of [on_bars] ends for an instrument:
    with one [set_target] call, or with none and the target left alone. *)
Definition called {AM S} (vt_symbol : string) (target : Z)
    (st st' : Strategy AM S) (ev : list Event) : Prop :=
  ev = [EvSetTarget vt_symbol target] ∧ target_data st' !! vt_symbol = Some target.

Definition quiet {AM S} (vt_symbol : string)
    (st st' : Strategy AM S) (ev : list Event) : Prop :=
  ev = [] ∧ target_data st' !! vt_symbol = target_data st !! vt_symbol.

(** The position logic of the second loop of [on_bars], as a relation
    between the strategy before ([st]) and after ([st']) and the calls made
    ([ev]), for an instrument whose indicators read ATR [a], ATR moving
    average [ma] and RSI [x]. *)
Definition position_logic {AM S} (s : string) (b : BarData) (a ma x : Q)
    (st st' : Strategy AM S) (ev : list Event) : Prop :=
  let tp := trailing_percent (settings st) in
  if (StrategyTemplate.get_pos st s =? 0)%Z then
    intra_trade_high st' !! s = Some (high_price b) ∧
    intra_trade_low st' !! s = Some (low_price b) ∧
    if gt a ma then
      if gt x (rsi_buy st) then called s (fixed_size (settings st)) st st' ev
      else if lt x (rsi_sell st) then called s (- fixed_size (settings st)) st st' ev
      else called s 0 st st' ev
    else quiet s st st' ev
  else if (StrategyTemplate.get_pos st s >? 0)%Z then
    let h := Py.max (StrategyTemplate.item (intra_trade_high st) s) (high_price b) in
    intra_trade_high st' !! s = Some h ∧
    intra_trade_low st' !! s = Some (low_price b) ∧
    if le (close_price b) (h * (1 - tp / 100)) then called s 0 st st' ev
    else quiet s st st' ev
  else
    let l := Py.min (StrategyTemplate.item (intra_trade_low st) s) (low_price b) in
    intra_trade_low st' !! s = Some l ∧
    intra_trade_high st' !! s = Some (high_price b) ∧
    if ge (close_price b) (l * (1 + tp / 100)) then called s 0 st st' ev
    else quiet s st st' ev.

(** The trailing stop of an open position is hit by the bar: the close is at
    or below the long stop, or at or above the short stop, computed from the
    extremes the slice leaves in [st']. *)
Definition stop_hit {AM S} (s : string) (b : BarData) (st st' : Strategy AM S) : Prop :=
  let tp := trailing_percent (settings st) in
  ((StrategyTemplate.get_pos st s > 0)%Z ∧
   close_price b <= StrategyTemplate.item (intra_trade_high st') s * (1 - tp / 100))
  ∨
  ((StrategyTemplate.get_pos st s < 0)%Z ∧
   StrategyTemplate.item (intra_trade_low st') s * (1 + tp / 100) <= close_price b).

(** Either strategy class, and its [on_bars]. *)
Inductive variant : Type := QuadProg | MeanReversion.

Definition on_bars_of {AM S} `{!ArrayManager AM} (v : variant)
    : dict BarData → M (AM:=AM) (S:=S) unit :=
  match v with
  | QuadProg => QuadProgStrategy.on_bars
  | MeanReversion => MeanReversionStrategy.on_bars
  end.

(** Whether an event is a [set_target] call for the instrument. *)
Definition about (vt_symbol : string) (e : Event) : bool :=
  match e with
  | EvSetTarget s _ => bool_decide (s = vt_symbol)
  | _ => false
  end.

(** The [set_target] calls among the events. *)
Definition is_set_target (e : Event) : bool :=
  match e with
  | EvSetTarget _ _ => true
  | _ => false
  end.

(** The slice did nothing for the instrument: its entries are as before, no
    call was made for it, and the slice did not get to the rebalance. *)
Definition untouched {AM S} (s : string) (bars : dict BarData)
    (st st' : Strategy AM S) (ev : list Event) : Prop :=
  locals s st' = locals s st ∧ filter (about s) ev = [] ∧ EvRebalance bars ∉ ev.

(** The second loop of [on_bars] gets to the entry [(s, bar)] of the slice
    [pre ++ (s, bar) :: post] and runs its body on it: the instruments of
    the slice are distinct and each has an [ArrayManager] (the first loop
    passes), and the instruments iterated before [s], and [s] itself, are
    warmed up and have an ATR to read once they have taken their bars (the
    second loop does not return or fail before it is done with [s]).
    Nothing is asked of the instruments after [s]. *)
Definition reaches {AM S} `{!ArrayManager AM} (st : Strategy AM S)
    (pre : dict BarData) (s : string) (bar : BarData) (post : dict BarData)
    : Prop :=
  wf (pre ++ (s, bar) :: post) ∧
  (∀ s' b', (s', b') ∈ pre ++ (s, bar) :: post → is_Some (ams st !! s')) ∧
  (∀ s' b', (s', b') ∈ pre ++ [(s, bar)] →
     ∃ am, ams st !! s' = Some am ∧ inited (update_bar am b') = true ∧
           atr (update_bar am b') (atr_window (settings st)) ≠ []).

(** The series [calculate_unit_var] builds for one entry of
    [signal_strength]: the prices of the instrument scaled by its weight. *)
Definition weighted {AM S F} `{!Pandas S F} (st : Strategy AM S)
    (p : string * Q) (series : S) : Prop :=
  ∃ prices w,
    daily_prices st !! p.1 = Some prices ∧
    Py.get (unit_weights st) p.1 = Some w ∧
    series = scale prices w.

(** The execution engine reports a fill: the positions change, nothing else
    does. *)
Definition with_pos_data {AM S} (v : gmap string Z) (st : Strategy AM S)
  : Strategy AM S :=
  {| settings := settings st; rsi_buy := rsi_buy st; rsi_sell := rsi_sell st;
     ams := ams st; atr_data := atr_data st; atr_ma := atr_ma st;
     rsi_data := rsi_data st; intra_trade_high := intra_trade_high st;
     intra_trade_low := intra_trade_low st; pos_data := v;
     target_data := target_data st; signal_strength := signal_strength st;
     unit_weights := unit_weights st; daily_prices := daily_prices st |}.

(** [held v long s st st']: from [st] the strategy reaches [st'] through
    consecutive slices and fills, the position in [s] being long (short when
    [long] is false) whenever a slice arrives. *)
Inductive held {AM S} `{!ArrayManager AM} (v : variant) (long : bool) (s : string)
  : Strategy AM S → Strategy AM S → Prop :=
| held_refl st : held v long s st st
| held_slice bars st r st1 ev st2 :
    wf bars →
    (if long then StrategyTemplate.get_pos st s > 0
     else StrategyTemplate.get_pos st s < 0)%Z →
    on_bars_of v bars st = (r, st1, ev) →
    held v long s st1 st2 →
    held v long s st st2
| held_fill pos st st2 :
    held v long s (with_pos_data pos st) st2 →
    held v long s st st2.

(** The instrument a [set_target] call is for. *)
Definition callee (e : Event) : option string :=
  match e with
  | EvSetTarget s _ => Some s
  | _ => None
  end.

(** What a [set_target] call of a slice can ask for in an instrument: 0,
    or plus or minus [fixed_size] when the position is 0. *)
Definition allowed {AM S} (st : Strategy AM S) (s : string) (t : Z) : Prop :=
  t = 0%Z ∨
  (StrategyTemplate.get_pos st s = 0%Z ∧
   (t = fixed_size (settings st) ∨ t = (- fixed_size (settings st))%Z)).

(** The constructor of either class. *)
Definition init_of {AM S} `{!NewArrayManager AM} (v : variant)
    : M (AM:=AM) (S:=S) unit :=
  match v with
  | QuadProg => QuadProgStrategy.__init__
  | MeanReversion => MeanReversionStrategy.__init__
  end.

(** [trail v long s st seen st']: from [st] the strategy reaches [st']
    through consecutive slices that run to their rebalance (and fills in
    between), the position in [s] being long (short when [long] is false)
    whenever a slice arrives; [seen] lists the bars of [s], oldest first. *)
Inductive trail {AM S} `{!ArrayManager AM} (v : variant) (long : bool) (s : string)
  : Strategy AM S → list BarData → Strategy AM S → Prop :=
| trail_nil st : trail v long s st [] st
| trail_slice bars bar st r st1 ev seen st2 :
    wf bars → (s, bar) ∈ bars →
    (if long then StrategyTemplate.get_pos st s > 0
     else StrategyTemplate.get_pos st s < 0)%Z →
    on_bars_of v bars st = (r, st1, ev) →
    EvRebalance bars ∈ ev →
    trail v long s st1 seen st2 →
    trail v long s st (bar :: seen) st2
| trail_fill pos st seen st2 :
    trail v long s (with_pos_data pos st) seen st2 →
    trail v long s st seen st2.

(** [evolves v st st']: from [st] the strategy reaches [st'] through slices,
    however they end, and fills. *)
Inductive evolves {AM S} `{!ArrayManager AM} (v : variant)
  : Strategy AM S → Strategy AM S → Prop :=
| evolves_refl st : evolves v st st
| evolves_slice bars st r st1 ev st2 :
    on_bars_of v bars st = (r, st1, ev) →
    evolves v st1 st2 →
    evolves v st st2
| evolves_fill pos st st2 :
    evolves v (with_pos_data pos st) st2 →
    evolves v st st2.

(** The states a [QuadProgStrategy] object goes through when, once
    constructed, only the methods of the class and the fills of the engine
    act on it.  A tick reaches the object as the slices the bar generator
    hands to [on_bars]. *)
Inductive reachable {AM S F} `{!ArrayManager AM} `{!NewArrayManager AM}
    `{!Pandas S F} : Strategy AM S → Prop :=
| reach_init st : reachable (QuadProgStrategy.__init__ st).1.2
| reach_on_init st :
    reachable st → reachable (QuadProgStrategy.on_init st).1.2
| reach_on_start st :
    reachable st → reachable (QuadProgStrategy.on_start st).1.2
| reach_on_stop st :
    reachable st → reachable (QuadProgStrategy.on_stop st).1.2
| reach_on_bars st bars :
    reachable st → reachable (QuadProgStrategy.on_bars bars st).1.2
| reach_on_window_bars st bars :
    reachable st → reachable (QuadProgStrategy.on_window_bars bars st).1.2
| reach_unit_weights st :
    reachable st → reachable (QuadProgStrategy.calculate_unit_weights st).1.2
| reach_unit_var st :
    reachable st → reachable (QuadProgStrategy.calculate_unit_var (F:=F) st).1.2
| reach_fill st pos :
    reachable st → reachable (with_pos_data pos st).

(** ** Collaborators for running the strategies on concrete data *)

Module Replay.

(** One reading of the indicators of an instrument. *)
Record reading : Type := {
  r_inited : bool;
  r_atr : list Q;
  r_rsi : Q;
}.

(** An [ArrayManager] that replays recorded readings: the head is the reading
    after the bars seen so far, each new bar moves to the next one. *)
Definition tape : Type := list reading.

Definition current (t : tape) : reading :=
  match t with
  | r :: _ => r
  | [] => {| r_inited := false; r_atr := []; r_rsi := 0 |}
  end.

#[export] Instance tape_manager : ArrayManager tape := {|
  update_bar t _ := tail t;
  inited t := r_inited (current t);
  atr t _ := r_atr (current t);
  rsi t _ := r_rsi (current t);
|}.

(** A new manager has no reading recorded: it stays cold. *)
#[export] Instance tape_new : NewArrayManager tape := [].

(** A price series as the list of its values, rows aligned by position. *)
Fixpoint add_rows (a b : list Q) : list Q :=
  match a, b with
  | [], _ => b
  | _, [] => a
  | x :: a', y :: b' => (x + y) :: add_rows a' b'
  end.

(** The exponentially weighted standard deviation of a series is not a
    rational number in general: the statistic is kept as the expression it
    is, the span and the series it is taken of, and is not evaluated. *)
Inductive statistic : Type :=
| EwmStdLast (span : Z) (series : list Q).

(** A stand-in for [pandas] on which an example can be run: a series is the
    list of its values, rows aligned by position, and series are combined
    row by row. *)
#[export] Instance rows : Pandas (list Q) statistic := {|
  scale s w := (λ x, x * w) <$> s;
  concat_sum l :=
    match l with
    | [] => None
    | s :: l' => Some (foldl add_rows s l')
    end;
  ewm_std_last span s :=
    match s with
    | [] => None
    | _ => Some (EwmStdLast span s)
    end;
|}.

End Replay.

(** ** Concrete strategy objects *)

Module Examples.
Import Replay.

Definition sample_settings : Settings := {|
  strategy_name := "demo";
  vt_symbols := ["A"; "B"];
  atr_window := 22;
  atr_ma_window := 10;
  rsi_window := 5;
  rsi_entry := 16;
  trailing_percent := 8 # 10;
  fixed_size := 1;
  lookback_var := 20;
|}.

(** A strategy object over the instruments of [tapes], before [on_init].
    No code under the sources assigns the thresholds of a new object; they
    are whatever the object holds, [buy] and [sell] here. *)
Definition fresh (buy sell : Q) (tapes : gmap string tape)
  : Strategy tape (list Q) := {|
  settings := sample_settings;
  rsi_buy := buy;
  rsi_sell := sell;
  ams := tapes;
  atr_data := ∅;
  atr_ma := ∅;
  rsi_data := ∅;
  intra_trade_high := ∅;
  intra_trade_low := ∅;
  pos_data := ∅;
  target_data := ∅;
  signal_strength := [];
  unit_weights := [];
  daily_prices := ∅;
|}.

Definition with_signal_strength (v : dict Q) (st : Strategy tape (list Q))
  : Strategy tape (list Q) :=
  {| settings := settings st; rsi_buy := rsi_buy st; rsi_sell := rsi_sell st;
     ams := ams st; atr_data := atr_data st; atr_ma := atr_ma st;
     rsi_data := rsi_data st; intra_trade_high := intra_trade_high st;
     intra_trade_low := intra_trade_low st; pos_data := pos_data st;
     target_data := target_data st; signal_strength := v;
     unit_weights := unit_weights st; daily_prices := daily_prices st |}.

(** Readings of the indicators: warmed up with the ATR above its moving
    average ([hot], RSI 70, and [neutral], RSI 50), warmed up with the ATR
    below it ([calm], RSI 70), and not warmed up yet ([cold]). *)
Definition hot : reading :=
  {| r_inited := true; r_atr := [1; 1; 1; 2]; r_rsi := 70 |}.
Definition calm : reading :=
  {| r_inited := true; r_atr := [2; 2; 2; 1]; r_rsi := 70 |}.
Definition cold : reading :=
  {| r_inited := false; r_atr := []; r_rsi := 0 |}.

(** The tape of an instrument whose indicators will read [rs], slice after
    slice. *)
Definition tape_of (rs : list reading) : tape := cold :: rs.

Definition bar_of (high low close : Q) : BarData :=
  {| open_price := close; high_price := high; low_price := low;
     close_price := close; volume := 0 |}.

(** A strategy of class [MeanReversionStrategy] after [on_init], which
    assigns both thresholds: whatever they were before is overwritten (see
    [started_any] below). *)
Definition started (tapes : gmap string tape) : Strategy tape (list Q) :=
  (MeanReversionStrategy.on_init (fresh 50 50 tapes)).1.2.

(** The same with instrument A held: position [pos], pending target [pos],
    and the extremes of the trade so far. *)
Definition holding (tapes : gmap string tape) (pos : Z) (high low : Q)
  : Strategy tape (list Q) :=
  let st := started tapes in
  {| settings := settings st; rsi_buy := rsi_buy st; rsi_sell := rsi_sell st;
     ams := ams st; atr_data := atr_data st; atr_ma := atr_ma st;
     rsi_data := rsi_data st;
     intra_trade_high := {["A" := high]};
     intra_trade_low := {["A" := low]};
     pos_data := {["A" := pos]};
     target_data := {["A" := pos]};
     signal_strength := signal_strength st;
     unit_weights := unit_weights st; daily_prices := daily_prices st |}.

(** Slices and instruments used below. *)
Definition bar_100 : BarData := bar_of 101 99 100.
Definition bar_109 : BarData := bar_of (219 # 2) (217 # 2) 109.
Definition bar_hold : BarData := bar_of 111 110 (221 # 2).
Definition slice_A (b : BarData) : dict BarData := [("A", b)].
Definition slice_AB (b : BarData) : dict BarData := [("A", b); ("B", b)].
Definition slice_BA (b : BarData) : dict BarData := [("B", b); ("A", b)].

(** Instrument A warmed up and B not; A alone, one or two slices ahead. *)
Definition pair_tapes : gmap string tape :=
  {["A" := tape_of [hot]; "B" := tape_of [cold]]}.
Definition hot_tape : gmap string tape := {["A" := tape_of [hot]]}.
Definition hot_calm_tape : gmap string tape := {["A" := tape_of [hot; calm]]}.
Definition calm_tape : gmap string tape := {["A" := tape_of [calm]]}.

(** Instrument A warmed up for two slices, B not warmed up. *)
Definition hot_twice_cold : gmap string tape :=
  {["A" := tape_of [hot; hot]; "B" := tape_of [cold]]}.

(** Both instruments warmed up; a slice with an instrument (C) that the
    strategy does not know. *)
Definition both_hot : gmap string tape :=
  {["A" := tape_of [hot]; "B" := tape_of [hot]]}.
Definition slice_AC (b : BarData) : dict BarData := [("A", b); ("C", b)].

(** The state a call leaves behind, and the calls it made. *)
Definition after {A} (run : outcome A * Strategy tape (list Q) * list Event)
  : Strategy tape (list Q) := run.1.2.
Definition calls {A} (run : outcome A * Strategy tape (list Q) * list Event)
  : list Event := run.2.

(** Strengths [{A: 1, B: -1}]: one long and one short signal.  The
    weighting methods read no threshold; the objects below hold 50 and 50. *)
Definition long_short : Strategy tape (list Q) :=
  with_signal_strength [("A", 1); ("B", -1)] (fresh 50 50 ∅).

(** Strengths [{A: 1, B: 3}] with their unit weights and two days of
    prices. *)
Definition priced : Strategy tape (list Q) :=
  let st := fresh 50 50 ∅ in
  {| settings := settings st; rsi_buy := rsi_buy st; rsi_sell := rsi_sell st;
     ams := ams st; atr_data := atr_data st; atr_ma := atr_ma st;
     rsi_data := rsi_data st; intra_trade_high := intra_trade_high st;
     intra_trade_low := intra_trade_low st; pos_data := pos_data st;
     target_data := target_data st;
     signal_strength := [("A", 1); ("B", 3)];
     unit_weights := [("A", 1 # 4); ("B", 3 # 4)];
     daily_prices := {["A" := [100; 104]; "B" := [40; 44]]} |}.

(** The same with the prices of B missing. *)
Definition half_priced : Strategy tape (list Q) :=
  with_daily_prices {["A" := [100; 104]]} priced.

(** Strengths [{A: -1, B: -3}]: two short signals. *)
Definition two_shorts : Strategy tape (list Q) :=
  with_signal_strength [("A", -1); ("B", -3)] (fresh 50 50 ∅).

(** Strengths [{A: 1, B: 3}]. *)
Definition one_three : Strategy tape (list Q) :=
  with_signal_strength [("A", 1); ("B", 3)] (fresh 50 50 ∅).

End Examples.

(** * Properties *)

(** ** Dictionaries and sums *)

Lemma sum_from (xs : list Q) (a : Q) : fold_left Qplus xs a == a + Py.sum xs.
Proof.
  unfold Py.sum. revert a. induction xs as [|x xs IH]; intros a; cbn.
  - ring.
  - rewrite (IH (a + x)), (IH (0 + x)). ring.
Qed.

Lemma sum_cons (x : Q) (xs : list Q) : Py.sum (x :: xs) == x + Py.sum xs.
Proof. unfold Py.sum at 1. cbn. rewrite sum_from. ring. Qed.

Lemma sum_scaled (t : Q) (xs : list Q) :
  Py.sum ((λ x, x / t) <$> xs) == Py.sum xs / t.
Proof.
  induction xs as [|x xs IH].
  - unfold Py.sum; cbn. unfold Qdiv. ring.
  - rewrite fmap_cons, !sum_cons, IH. unfold Qdiv. ring.
Qed.

Lemma set_fresh {V} (d : dict V) (k : string) (v : V) :
  k ∉ keys d → Py.set d k v = d ++ [(k, v)].
Proof.
  induction d as [|[k' v'] d IH]; cbn; [done|].
  intros Hk. apply not_elem_of_cons in Hk as [Hne Hk].
  case_decide; [congruence|]. by rewrite IH.
Qed.

Lemma get_elem_of {V} (d : dict V) (k : string) (v : V) :
  wf d → (k, v) ∈ d → Py.get d k = Some v.
Proof.
  unfold wf, keys. induction d as [|[k' v'] d IH]; cbn.
  - by intros _ ?%elem_of_nil.
  - intros [Hk Hd]%NoDup_cons [[= -> ->]|Hin]%elem_of_cons.
    + by case_decide.
    + case_decide as Heq; [|by apply IH].
      subst k'. exfalso. apply Hk. apply list_elem_of_fmap. by exists (k, v).
Qed.

(** Filling an empty dictionary key by key from a well-formed one keeps the
    order of the keys and maps the values. *)
Lemma set_all {V W} (f : V → W) (d : dict W) (l : dict V) :
  NoDup (keys d ++ keys l) →
  foldl (λ acc '(k, v), Py.set acc k (f v)) d l = d ++ (prod_map id f <$> l).
Proof.
  revert d. induction l as [|[k v] l IH]; intros d Hnd; cbn.
  - by rewrite app_nil_r.
  - cbn in Hnd. rewrite set_fresh.
    + rewrite IH; [by rewrite <-app_assoc|].
      unfold keys. rewrite fmap_app. cbn. by rewrite <-app_assoc.
    + apply NoDup_app in Hnd as (_ & Hd & _). intros Hk. apply (Hd k Hk). left.
Qed.

(** ** Loops *)

Section Loops.
Context {AM S : Type}.
Local Abbreviation M := (M (AM:=AM) (S:=S)).

Lemma for_each_nil {A} (body : A → M flow) st :
  for_each [] body st = (Ok Continue, st, []).
Proof. done. Qed.

Lemma for_each_cons {A} (x : A) (xs : list A) (body : A → M flow) st :
  for_each (x :: xs) body st =
    match body x st with
    | (Ok Continue, st1, ev1) =>
        match for_each xs body st1 with
        | (r, st2, ev2) => (r, st2, ev1 ++ ev2)
        end
    | (Ok Return, st1, ev1) => (Ok Return, st1, ev1)
    | (Raise e, st1, ev1) => (Raise e, st1, ev1)
    end.
Proof.
  cbn. unfold mbind, M_bind.
  destruct (body x st) as [[[[]|e] st1] ev1]; cbn; by rewrite ?app_nil_r.
Qed.

(** A loop over [pre ++ post] is the loop over [pre] followed, when that one
    falls through, by the loop over [post]. *)
Lemma for_each_app {A} (pre post : list A) (body : A → M flow) st :
  for_each (pre ++ post) body st =
    match for_each pre body st with
    | (Ok Continue, st1, ev1) =>
        match for_each post body st1 with
        | (r, st2, ev2) => (r, st2, ev1 ++ ev2)
        end
    | other => other
    end.
Proof.
  revert st. induction pre as [|x pre IH]; intros st.
  - rewrite for_each_nil. cbn [app]. by destruct (for_each post body st) as [[? ?] ?].
  - rewrite <-app_comm_cons, !for_each_cons.
    destruct (body x st) as [[[[]|e] st1] ev1]; try done.
    rewrite IH.
    destruct (for_each pre body st1) as [[[[]|e] st2] ev2]; try done.
    destruct (for_each post body st2) as [[r st3] ev3].
    by rewrite app_assoc.
Qed.

End Loops.

(** ** The unit weights of [QuadProgStrategy] *)

Section UnitWeights.
Context {AM S : Type}.
Local Abbreviation self := (Strategy AM S).

Import QuadProgStrategy.

Lemma with_unit_weights_id (st : self) : with_unit_weights (unit_weights st) st = st.
Proof. by destruct st. Qed.

Lemma unit_weight_item_nonzero (t : Q) (k : string) (v : Q) (st : self) :
  Qeq_bool t 0 = false →
  unit_weight_item t (k, v) st =
    (Ok Continue, with_unit_weights (Py.set (unit_weights st) k (v / t)) st, []).
Proof. intros Ht. unfold unit_weight_item, mbind, M_bind, divide. by rewrite Ht. Qed.

Lemma unit_weight_item_zero (t : Q) (k : string) (v : Q) (st : self) :
  Qeq_bool t 0 = true →
  unit_weight_item t (k, v) st = (Raise ZeroDivisionError, st, []).
Proof. intros Ht. unfold unit_weight_item, mbind, M_bind, divide. by rewrite Ht. Qed.

Lemma weights_loop_nonzero (t : Q) (l : dict Q) (st : self) :
  Qeq_bool t 0 = false →
  for_each l (unit_weight_item t) st =
    (Ok Continue,
     with_unit_weights
       (foldl (λ acc '(k, v), Py.set acc k (v / t)) (unit_weights st) l) st,
     []).
Proof.
  intros Ht. revert st.
  induction l as [|[k v] l IH]; intros st.
  - rewrite for_each_nil. cbn [foldl]. by rewrite with_unit_weights_id.
  - rewrite for_each_cons, unit_weight_item_nonzero, IH by done. done.
Qed.

Lemma weights_loop_zero (t : Q) (l : dict Q) (st : self) :
  Qeq_bool t 0 = true → l ≠ [] →
  for_each l (unit_weight_item t) st = (Raise ZeroDivisionError, st, []).
Proof.
  intros Ht Hl. destruct l as [|[k v] l]; [done|].
  by rewrite for_each_cons, unit_weight_item_zero.
Qed.

Lemma calculate_unit_weights_unfold (st : self) :
  calculate_unit_weights st =
    match for_each (signal_strength st)
            (unit_weight_item (Py.sum (values (signal_strength st))))
            (with_unit_weights [] st) with
    | (Ok _, st', ev) => (Ok (unit_weights st'), st', ev)
    | (Raise e, st', ev) => (Raise e, st', ev)
    end.
Proof.
  unfold calculate_unit_weights, mbind, M_bind, read, modify. cbn. destruct (for_each _ _ _) as [[[] ?] ?]; cbn; by rewrite ?app_nil_r.
Qed.

(** C8.  Whenever the strengths do not sum to zero, [calculate_unit_weights]
    returns (and stores in [unit_weights]) a dictionary with the keys of
    [signal_strength], in which the weight of every instrument is its
    strength divided by the total strength, and whose values sum to 1. *)
Theorem unit_weights_normalised (st : self) :
  wf (signal_strength st) →
  ¬ Py.sum (values (signal_strength st)) == 0 →
  ∃ w : dict Q,
    calculate_unit_weights st = (Ok w, with_unit_weights w st, []) ∧
    keys w = keys (signal_strength st) ∧
    (∀ vt_symbol strength,
       (vt_symbol, strength) ∈ signal_strength st →
       Py.get w vt_symbol
         = Some (strength / Py.sum (values (signal_strength st)))) ∧
    Py.sum (values w) == 1.
Proof.
  intros Hwf Hsum.
  set (t := Py.sum (values (signal_strength st))) in *.
  assert (Ht : Qeq_bool t 0 = false).
  { destruct (Qeq_bool t 0) eqn:E; [|done]. by apply Qeq_bool_iff in E. }
  exists (prod_map id (λ x, x / t) <$> signal_strength st).
  assert (Hkeys : keys (prod_map id (λ x, x / t) <$> signal_strength st)
                  = keys (signal_strength st)).
  { unfold keys. rewrite <-list_fmap_compose. apply list_fmap_ext. by intros ? []. }
  split; [|split; [done|split]].
  - rewrite calculate_unit_weights_unfold. fold t.
    rewrite weights_loop_nonzero by done. cbn.
    rewrite (set_all (λ x, x / t) [] (signal_strength st)) by done. done.
  - intros k x Hin. apply get_elem_of.
    + unfold wf. by rewrite Hkeys.
    + apply list_elem_of_fmap. by exists (k, x).
  - unfold values. rewrite <-list_fmap_compose.
    rewrite (list_fmap_ext _ ((λ x, x / t) ∘ snd) (signal_strength st))
      by (by intros ? []).
    rewrite list_fmap_compose, sum_scaled. fold (values (signal_strength st)).
    fold t. by field.
Qed.

(** C2 (as the code has it).  When the strengths sum to zero,
    [calculate_unit_weights] has no guard: it empties [unit_weights] and
    then, unless [signal_strength] is empty, the first division raises
    [ZeroDivisionError] to the caller.  Only for an empty [signal_strength]
    does it return, with the empty dictionary. *)
Theorem zero_total_strength (st : self) :
  Py.sum (values (signal_strength st)) == 0 →
  calculate_unit_weights st =
    match signal_strength st with
    | [] => (Ok [], with_unit_weights [] st, [])
    | _ :: _ => (Raise ZeroDivisionError, with_unit_weights [] st, [])
    end.
Proof.
  intros Hsum%Qeq_bool_iff. rewrite calculate_unit_weights_unfold.
  destruct (signal_strength st) as [|p l] eqn:E.
  - by rewrite for_each_nil.
  - by rewrite weights_loop_zero.
Qed.

End UnitWeights.

Lemma unit_weights_normalised_witness :
  ∃ w : dict Q,
    QuadProgStrategy.calculate_unit_weights Examples.one_three
      = (Ok w, with_unit_weights w Examples.one_three, []) ∧
    keys w = ["A"; "B"] ∧
    (∀ vt_symbol strength,
       (vt_symbol, strength) ∈ signal_strength Examples.one_three →
       Py.get w vt_symbol = Some (strength / (0 + 1 + 3))) ∧
    Py.sum (values w) == 1.
Proof.
  apply (unit_weights_normalised Examples.one_three).
  - apply (bool_decide_unpack _). vm_compute. reflexivity.
  - vm_compute. discriminate.
Defined.

Lemma zero_total_strength_witness :
  QuadProgStrategy.calculate_unit_weights Examples.long_short
  = (Raise ZeroDivisionError, with_unit_weights [] Examples.long_short, []).
Proof.
  apply (zero_total_strength Examples.long_short). vm_compute. reflexivity.
Defined.

(** C2 (as stated) fails: with strengths [{A: 1, B: -1}] the sum is zero and
    the call raises [ZeroDivisionError] instead of returning. *)
Lemma zero_total_strength_raises :
  Py.sum (values (signal_strength Examples.long_short)) == 0 ∧
  (QuadProgStrategy.calculate_unit_weights Examples.long_short).1.1 = Raise ZeroDivisionError.
Proof. split; vm_compute; reflexivity. Qed.

(** ** One bar slice *)

Section Slices.
Context {AM S : Type} `{!ArrayManager AM}.
Local Abbreviation self := (Strategy AM S).

Import QuadProgStrategy StrategyTemplate.

(** [MeanReversionStrategy.on_bars] is the same method as
    [QuadProgStrategy.on_bars]. *)
Lemma on_bars_variant (v : variant) :
  on_bars_of (AM:=AM) (S:=S) v = QuadProgStrategy.on_bars.
Proof. by destruct v. Qed.

(** Evaluation of the body of the second loop, branch by branch. *)
Ltac run_step :=
  rewrite ?lookup_insert_eq; cbn;
  match goal with
  | |- context [match ?m !! ?k with _ => _ end] => destruct (m !! k) eqn:?
  | |- context [if negb (inited ?a) then _ else _] => destruct (inited a) eqn:?
  | |- context [last_item ?l] => unfold last_item; destruct (last l) eqn:?
  | |- context [if ?b then _ else _] => destruct b eqn:?
  end; cbn.

Ltac run_symbol :=
  unfold on_bars_symbol, mbind, M_bind, read, index, get_pos, item; cbn;
  repeat run_step.

Lemma symbol_inv (s : string) (b : BarData) (st st' : self) r ev :
  on_bars_symbol (s, b) st = (r, st', ev) →
  globals st' = globals st ∧
  (∀ s', s' ≠ s → locals s' st' = locals s' st) ∧
  match ams st !! s with
  | None => r = Raise (KeyError s) ∧ st' = st ∧ ev = []
  | Some am =>
      if inited am then
        match last (atr am (atr_window (settings st))) with
        | None => r = Raise IndexError ∧ st' = st ∧ ev = []
        | Some a =>
            let ma := mean (tail_slice (atr_ma_window (settings st))
                              (atr am (atr_window (settings st)))) in
            let x := rsi am (rsi_window (settings st)) in
            r = Ok Continue ∧
            atr_data st' !! s = Some a ∧
            atr_ma st' !! s = Some ma ∧
            rsi_data st' !! s = Some x ∧
            position_logic s b a ma x st st' ev
        end
      else r = Ok Return ∧ st' = st ∧ ev = []
  end.
Proof.
  unfold position_logic. run_symbol.
  all: intros [= <- <- <-].
  all: unfold globals, locals, position_logic, called, quiet, get_pos, item; cbn.
  all: rewrite ?lookup_insert_eq; cbn.
  all: try (split; [reflexivity|split;
    [intros s' Hs'; apply not_eq_sym in Hs';
     rewrite ?lookup_insert_ne by exact Hs'; reflexivity
    |repeat split; reflexivity]]).
  all: exfalso; repeat match goal with
    | H : (_ =? _)%Z = false |- _ => apply Z.eqb_neq in H
    | H : (_ >? _)%Z = false |- _ => rewrite Z.gtb_ltb in H; apply Z.ltb_ge in H
    | H : (_ <? _)%Z = false |- _ => apply Z.ltb_ge in H
    end; lia.
Qed.

Lemma symbol_events (s : string) (b : BarData) (st st' : self) r ev :
  on_bars_symbol (s, b) st = (r, st', ev) →
  ev = [] ∨ ∃ t, ev = [EvSetTarget s t].
Proof.
  intros H. apply symbol_inv in H as (_ & _ & H). unfold position_logic in H.
  repeat match type of H with
         | match ?x with _ => _ end => destruct x
         | if ?x then _ else _ => destruct x
         | _ ∧ _ => destruct H as [_ H]
         | _ => progress cbn zeta in H
         end.
  all: first [ left; exact H
             | destruct H as [H _]; first [by left | by right; eexists] ].
Qed.

Lemma about_self (s : string) (ev : list Event) :
  (ev = [] ∨ ∃ t, ev = [EvSetTarget s t]) → filter (about s) ev = ev.
Proof.
  intros [->|[t ->]]; [done|]. rewrite filter_cons_True; [done|].
  cbn. by rewrite bool_decide_eq_true_2.
Qed.

Lemma about_other (s s' : string) (ev : list Event) :
  s ≠ s' → (ev = [] ∨ ∃ t, ev = [EvSetTarget s' t]) → filter (about s) ev = [].
Proof.
  intros Hne [->|[t ->]]; [done|]. rewrite filter_cons_False; [done|].
  cbn. rewrite bool_decide_eq_false_2; [by intros []|congruence].
Qed.

Lemma symbol_loop (bars : dict BarData) (st st' : self) r ev :
  for_each bars on_bars_symbol st = (r, st', ev) →
  globals st' = globals st ∧
  Forall is_set_target ev ∧
  (∀ s, s ∉ keys bars → locals s st' = locals s st ∧ filter (about s) ev = []).
Proof.
  revert st r st' ev. induction bars as [|[s0 b0] bars IH]; intros st r st' ev.
  - rewrite for_each_nil. by intros [= <- <- <-].
  - rewrite for_each_cons.
    destruct (on_bars_symbol (s0, b0) st) as [[r0 st0] ev0] eqn:E0.
    pose proof (symbol_events _ _ _ _ _ _ E0) as Hev0.
    apply symbol_inv in E0 as (Hg0 & Hl0 & _).
    assert (Hset0 : Forall is_set_target ev0).
    { destruct Hev0 as [->|[t ->]]; repeat constructor. }
    assert (Hrest : ∀ s, s ∉ keys ((s0, b0) :: bars) →
              locals s st0 = locals s st ∧ filter (about s) ev0 = []).
    { intros s [Hne _]%not_elem_of_cons. split; [by apply Hl0|by eapply about_other]. }
    destruct r0 as [[]|e].
    + destruct (for_each bars on_bars_symbol st0) as [[r1 st1] ev1] eqn:E1.
      intros [= <- <- <-]. apply IH in E1 as (Hg1 & Hset1 & Hl1).
      split; [congruence|]. split; [by apply Forall_app|].
      intros s Hs. destruct (Hrest s Hs) as [Ha Hb].
      apply not_elem_of_cons in Hs as [_ Hs]. destruct (Hl1 s Hs) as [Hc Hd].
      split; [congruence|]. by rewrite filter_app, Hb, Hd.
    + by intros [= <- <- <-].
    + by intros [= <- <- <-].
Qed.

Lemma symbol_loop_at (bars : dict BarData) (st st' : self) r ev s bar :
  wf bars → (s, bar) ∈ bars →
  for_each bars on_bars_symbol st = (r, st', ev) →
  (locals s st' = locals s st ∧ filter (about s) ev = [] ∧ r ≠ Ok Continue)
  ∨ ∃ sta stb r',
      on_bars_symbol (s, bar) sta = (r', stb, filter (about s) ev) ∧
      globals sta = globals st ∧ locals s sta = locals s st ∧
      locals s stb = locals s st' ∧ (r = Ok Continue → r' = Ok Continue).
Proof.
  unfold wf, keys. revert st r st' ev.
  induction bars as [|[s0 b0] bars IH]; intros st r st' ev Hwf Hin.
  { by apply elem_of_nil in Hin. }
  cbn in Hwf. apply NoDup_cons in Hwf as [Hs0 Hwf].
  rewrite for_each_cons.
  destruct (on_bars_symbol (s0, b0) st) as [[r0 st0] ev0] eqn:E0.
  pose proof (symbol_events _ _ _ _ _ _ E0) as Hev0.
  pose proof (symbol_inv _ _ _ _ _ _ E0) as (Hg0 & Hl0 & _).
  apply elem_of_cons in Hin as [[= -> ->]|Hin].
  - (* the instrument is the first of the slice *)
    intros Hrun. right. exists st, st0, r0.
    assert (Hfin : locals s0 st0 = locals s0 st' ∧ filter (about s0) ev = ev0
                   ∧ (r = Ok Continue → r0 = Ok Continue)).
    { destruct r0 as [[]|e].
      - destruct (for_each bars on_bars_symbol st0) as [[r1 st1] ev1] eqn:E1.
        injection Hrun as <- <- <-.
        apply symbol_loop in E1 as (_ & _ & Hl1). destruct (Hl1 s0 Hs0) as [Ha Hb].
        by rewrite filter_app, Hb, app_nil_r, about_self.
      - injection Hrun as <- <- <-. by rewrite about_self.
      - injection Hrun as <- <- <-. by rewrite about_self. }
    destruct Hfin as (? & -> & ?). done.
  - (* the instrument comes later *)
    assert (Hne : s ≠ s0).
    { intros ->. apply Hs0. apply list_elem_of_fmap. by exists (s0, bar). }
    destruct r0 as [[]|e].
    + destruct (for_each bars on_bars_symbol st0) as [[r1 st1] ev1] eqn:E1.
      intros [= <- <- <-].
      rewrite filter_app, (about_other s s0 ev0), app_nil_l by done.
      destruct (IH _ _ _ _ Hwf Hin E1) as [(Ha & Hb & Hc)|(sta & stb & r' & H1 & H2 & H3 & H4 & H5)].
      * left. rewrite Ha, Hl0 by done. done.
      * right. exists sta, stb, r'. rewrite H2, H3, Hg0, Hl0 by done. done.
    + intros [= <- <- <-]. left. rewrite Hl0, (about_other s s0 ev0) by done. done.
    + intros [= <- <- <-]. left. rewrite Hl0, (about_other s s0 ev0) by done. done.
Qed.

Lemma update_inv (s : string) (b : BarData) (st st1 : self) r ev :
  on_bars_update (s, b) st = (r, st1, ev) →
  ev = [] ∧
  match ams st !! s with
  | Some am => r = Ok Continue ∧ st1 = with_ams (<[s := update_bar am b]> (ams st)) st
  | None => r = Raise (KeyError s) ∧ st1 = st
  end.
Proof.
  unfold on_bars_update, mbind, M_bind, read, index. cbn.
  destruct (ams st !! s); cbn; by intros [= <- <- <-].
Qed.

(** The first loop changes the indicator states and nothing else. *)
Lemma update_loop (bars : dict BarData) (st st1 : self) r ev :
  for_each bars on_bars_update st = (r, st1, ev) →
  ev = [] ∧ r ≠ Ok Return ∧ st1 = with_ams (ams st1) st.
Proof.
  revert st r st1 ev. induction bars as [|[s0 b0] bars IH]; intros st r st1 ev.
  - rewrite for_each_nil. intros [= <- <- <-]. by destruct st.
  - rewrite for_each_cons.
    destruct (on_bars_update (s0, b0) st) as [[r0 st0] ev0] eqn:E0.
    apply update_inv in E0 as [-> E0].
    destruct (ams st !! s0) as [am|]; destruct E0 as [-> ->].
    + destruct (for_each bars on_bars_update _) as [[r1 st2] ev1] eqn:E1.
      intros [= <- <- <-]. apply IH in E1 as (-> & ? & E1).
      split; [done|]. split; [done|]. rewrite E1 at 1. done.
    + intros [= <- <- <-]. by destruct st.
Qed.

Lemma on_bars_unfold (bars : dict BarData) (st : self) :
  QuadProgStrategy.on_bars bars st =
    match for_each bars on_bars_update st with
    | (Ok _, st1, ev1) =>
        match for_each bars on_bars_symbol st1 with
        | (Ok Continue, st2, ev2) =>
            (Ok tt, st2, ev1 ++ ev2 ++ [EvRebalance bars; EvPutEvent])
        | (Ok Return, st2, ev2) => (Ok tt, st2, ev1 ++ ev2)
        | (Raise e, st2, ev2) => (Raise e, st2, ev1 ++ ev2)
        end
    | (Raise e, st1, ev1) => (Raise e, st1, ev1)
    end.
Proof.
  unfold QuadProgStrategy.on_bars, mbind, M_bind.
  destruct (for_each bars on_bars_update st) as [[[f|e] st1] ev1]; [|done].
  destruct (for_each bars on_bars_symbol st1) as [[[[]|e] st2] ev2]; cbn;
    by rewrite ?app_nil_r.
Qed.

(** What one slice does for one of its instruments: either the second loop
    never reached it, or it ran the loop body on it, from a state that agrees
    with the state before the slice on everything but the indicators. *)
Lemma slice_at (v : variant) (bars : dict BarData) (st st' : self) r ev s bar :
  wf bars → (s, bar) ∈ bars →
  on_bars_of v bars st = (r, st', ev) →
  settings st' = settings st ∧ rsi_buy st' = rsi_buy st ∧
  rsi_sell st' = rsi_sell st ∧ pos_data st' = pos_data st ∧
  ((locals s st' = locals s st ∧ filter (about s) ev = [] ∧ EvRebalance bars ∉ ev)
   ∨ ∃ (sta stb : self) r',
       on_bars_symbol (s, bar) sta = (r', stb, filter (about s) ev) ∧
       settings sta = settings st ∧ rsi_buy sta = rsi_buy st ∧
       rsi_sell sta = rsi_sell st ∧ pos_data sta = pos_data st ∧
       ams sta = ams st' ∧
       locals s sta = locals s st ∧ locals s stb = locals s st' ∧
       (EvRebalance bars ∈ ev → r' = Ok Continue)).
Proof.
  intros Hwf Hin. rewrite on_bars_variant, on_bars_unfold.
  destruct (for_each bars on_bars_update st) as [[r1 st1] ev1] eqn:E1.
  apply update_loop in E1 as (-> & Hr1 & E1).
  assert (Hst1 : settings st1 = settings st ∧ rsi_buy st1 = rsi_buy st ∧
                 rsi_sell st1 = rsi_sell st ∧ pos_data st1 = pos_data st ∧
                 locals s st1 = locals s st) by (by rewrite E1).
  destruct Hst1 as (Hs1 & Hb1 & Hl1 & Hp1 & Hloc1).
  destruct r1 as [f|e].
  2:{ intros [= <- <- <-]. repeat (split; [done|]). left. repeat (split; [done|]).
      by apply not_elem_of_nil. }
  destruct (for_each bars on_bars_symbol st1) as [[r2 st2] ev2] eqn:E2.
  pose proof (symbol_loop _ _ _ _ _ E2) as (Hg2 & Hset2 & _).
  assert (Hno : EvRebalance bars ∉ ev2).
  { intros Hx. rewrite Forall_forall in Hset2. by apply Hset2 in Hx. }
  injection Hg2 as Hs2 Hb2 Hl2 Ha2 Hp2 _ _ _.
  assert (Hcase : 
    (locals s st2 = locals s st ∧ filter (about s) ev2 = [] ∧ r2 ≠ Ok Continue)
    ∨ ∃ (sta stb : self) r',
       on_bars_symbol (s, bar) sta = (r', stb, filter (about s) ev2) ∧
       settings sta = settings st ∧ rsi_buy sta = rsi_buy st ∧
       rsi_sell sta = rsi_sell st ∧ pos_data sta = pos_data st ∧
       ams sta = ams st2 ∧
       locals s sta = locals s st ∧ locals s stb = locals s st2 ∧
       (r2 = Ok Continue → r' = Ok Continue)).
  { destruct (symbol_loop_at _ _ _ _ _ _ _ Hwf Hin E2)
      as [(Ha & Hb & Hc)|(sta & stb & r' & H1 & H2 & H3 & H4 & H5)].
    - left. by rewrite Ha.
    - right. exists sta, stb, r'. injection H2 as ? ? ? ? ? _ _ _.
      repeat split; try congruence; done. }
  destruct r2 as [[]|e]; intros [= <- <- <-]; cbn [app].
  - repeat (split; [congruence|]).
    destruct Hcase as [(_ & _ & Hc)|(sta & stb & r' & H1 & ? & ? & ? & ? & ? & ? & ? & Hr')];
      [done|].
    right. exists sta, stb, r'.
    rewrite filter_app. cbn. rewrite app_nil_r.
    repeat (split; [done|]). intros _. by apply Hr'.
  - repeat (split; [congruence|]).
    destruct Hcase as [(Ha & Hb & _)|(sta & stb & r' & H1 & ? & ? & ? & ? & ? & ? & ? & Hr')].
    + by left.
    + right. exists sta, stb, r'. repeat (split; [done|]). by intros ?%Hno.
  - repeat (split; [congruence|]).
    destruct Hcase as [(Ha & Hb & _)|(sta & stb & r' & H1 & ? & ? & ? & ? & ? & ? & ? & Hr')].
    + by left.
    + right. exists sta, stb, r'. repeat (split; [done|]). by intros ?%Hno.
Qed.
Lemma position_logic_transfer (s : string) (b : BarData) (a ma x : Q)
    (sta stb st st' : self) (evs : list Event) :
  settings sta = settings st → rsi_buy sta = rsi_buy st →
  rsi_sell sta = rsi_sell st → pos_data sta = pos_data st →
  locals s sta = locals s st → locals s stb = locals s st' →
  position_logic s b a ma x sta stb evs → position_logic s b a ma x st st' evs.
Proof.
  intros Hs Hb Hl Hp [= _ _ _ Hh Hlo Ht] [= _ _ _ Hh' Hlo' Ht'].
  unfold position_logic, called, quiet, get_pos, item.
  by rewrite Hs, Hb, Hl, Hp, Hh, Hlo, Ht, Hh', Hlo', Ht'.
Qed.

Lemma slice_cases (v : variant) (bars : dict BarData) (st st' : self) r ev s bar :
  wf bars → (s, bar) ∈ bars →
  on_bars_of v bars st = (r, st', ev) →
  settings st' = settings st ∧ rsi_buy st' = rsi_buy st ∧
  rsi_sell st' = rsi_sell st ∧ pos_data st' = pos_data st ∧
  ((locals s st' = locals s st ∧ filter (about s) ev = [] ∧ EvRebalance bars ∉ ev)
   ∨ ∃ am a,
       let ma := mean (tail_slice (atr_ma_window (settings st))
                         (atr am (atr_window (settings st)))) in
       let x := rsi am (rsi_window (settings st)) in
       ams st' !! s = Some am ∧ inited am = true ∧
       last (atr am (atr_window (settings st))) = Some a ∧
       atr_data st' !! s = Some a ∧
       atr_ma st' !! s = Some ma ∧
       rsi_data st' !! s = Some x ∧
       position_logic s bar a ma x st st' (filter (about s) ev)).
Proof.
  intros Hwf Hin Hrun.
  destruct (slice_at _ _ _ _ _ _ _ _ Hwf Hin Hrun)
    as (Hs & Hb & Hl & Hp & Hcase).
  repeat (split; [done|]).
  destruct Hcase as [?|(sta & stb & r' & Hbody & Hsa & Hba & Hla & Hpa & Hams
                         & Hloc & Hloc' & Hdone)]; [by left|].
  apply symbol_inv in Hbody as (_ & _ & Hbody). rewrite Hams, Hsa in Hbody.
  destruct (ams st' !! s) as [am|] eqn:Eam.
  2:{ destruct Hbody as (-> & -> & Hev). left. split; [congruence|]. split; [done|].
      by intros ?%Hdone. }
  destruct (inited am) eqn:Einit.
  2:{ destruct Hbody as (-> & -> & Hev). left. split; [congruence|]. split; [done|].
      by intros ?%Hdone. }
  destruct (last (atr am (atr_window (settings st)))) as [a|] eqn:Elast.
  2:{ destruct Hbody as (-> & -> & Hev). left. split; [congruence|]. split; [done|].
      by intros ?%Hdone. }
  cbn zeta in Hbody. destruct Hbody as (_ & Ha & Hma & Hx & Hlogic).
  pose proof Hloc' as Hfields. injection Hfields as Ha' Hma' Hx' _ _ _.
  right. exists am, a. cbn zeta. repeat (split; [congruence|]).
  by eapply position_logic_transfer.
Qed.

(** An instrument that is not in the slice is left alone. *)
Lemma slice_absent (v : variant) (bars : dict BarData) (st st' : self) r ev s :
  s ∉ keys bars →
  on_bars_of v bars st = (r, st', ev) →
  locals s st' = locals s st ∧ filter (about s) ev = [].
Proof.
  intros Hs. rewrite on_bars_variant, on_bars_unfold.
  destruct (for_each bars on_bars_update st) as [[r1 st1] ev1] eqn:E1.
  apply update_loop in E1 as (-> & Hr1 & E1).
  assert (Hloc1 : locals s st1 = locals s st) by (by rewrite E1).
  destruct r1 as [f|e]; [|by intros [= <- <- <-]].
  destruct (for_each bars on_bars_symbol st1) as [[r2 st2] ev2] eqn:E2.
  apply symbol_loop in E2 as (_ & _ & Hl2). destruct (Hl2 s Hs) as [Ha Hb].
  destruct r2 as [[]|e]; intros [= <- <- <-]; cbn [app];
    rewrite ?filter_app, ?Hb; (split; [congruence|done]).
Qed.
(** In a slice that runs to its rebalance, the indicator entries of an
    instrument are the readings of its indicator state after the update. *)
Lemma indicators_stored (v : variant) (bars : dict BarData) (st st' : self)
    r ev s bar :
  wf bars → (s, bar) ∈ bars →
  on_bars_of v bars st = (r, st', ev) →
  EvRebalance bars ∈ ev →
  ∃ am,
    ams st' !! s = Some am ∧
    atr_data st' !! s = last (atr am (atr_window (settings st))) ∧
    atr_ma st' !! s
      = Some (mean (tail_slice (atr_ma_window (settings st))
                      (atr am (atr_window (settings st))))) ∧
    rsi_data st' !! s = Some (rsi am (rsi_window (settings st))).
Proof.
  intros Hwf Hin Hrun Hdone.
  destruct (slice_cases _ _ _ _ _ _ _ _ Hwf Hin Hrun) as (_ & _ & _ & _ & Hcase).
  destruct Hcase as [(_ & _ & Hno)|(am & a & Hproc)]; [done|].
  cbn zeta in Hproc. destruct Hproc as (Ham & _ & Hlast & Ha & Hma & Hx & _).
  exists am. by rewrite Hlast.
Qed.

(** A slice leaves the settings, the thresholds and the positions alone. *)
Lemma on_bars_keeps (v : variant) (bars : dict BarData) (st st' : self) r ev :
  on_bars_of v bars st = (r, st', ev) →
  settings st' = settings st ∧ rsi_buy st' = rsi_buy st ∧
  rsi_sell st' = rsi_sell st ∧ pos_data st' = pos_data st.
Proof.
  rewrite on_bars_variant, on_bars_unfold.
  destruct (for_each _ on_bars_update st) as [[r1 st1] ev1] eqn:E1.
  apply update_loop in E1 as (_ & _ & E1).
  assert (H1 : settings st1 = settings st ∧ rsi_buy st1 = rsi_buy st ∧
               rsi_sell st1 = rsi_sell st ∧ pos_data st1 = pos_data st)
    by (by rewrite E1).
  destruct r1 as [f|e]; [|by intros [= <- <- <-]].
  destruct (for_each bars on_bars_symbol st1) as [[r2 st2] ev2] eqn:E2.
  apply symbol_loop in E2 as (Hg2 & _ & _). injection Hg2 as ? ? ? _ ? _ _ _.
  destruct H1 as (? & ? & ? & ?).
  destruct r2 as [[]|e]; intros [= <- <- <-]; repeat split; congruence.
Qed.

(** The first loop succeeds on a slice of known instruments, and updates the
    indicator state of each with its bar. *)
Lemma update_loop_ok (bars : dict BarData) (st : self) :
  wf bars →
  (∀ s bar, (s, bar) ∈ bars → is_Some (ams st !! s)) →
  ∃ st1 : self,
    for_each bars on_bars_update st = (Ok Continue, st1, []) ∧
    (∀ s bar am, (s, bar) ∈ bars → ams st !! s = Some am →
       ams st1 !! s = Some (update_bar am bar)) ∧
    (∀ s, s ∉ keys bars → ams st1 !! s = ams st !! s).
Proof.
  unfold wf, keys. revert st.
  induction bars as [|[s0 b0] bars IH]; intros st Hwf Hknown.
  - exists st. split; [done|]. split; [|done]. by intros ? ? ? ?%elem_of_nil.
  - cbn in Hwf. apply NoDup_cons in Hwf as [Hs0 Hwf].
    destruct (Hknown s0 b0) as [am0 Ham0]; [left|].
    set (st0 := with_ams (<[s0 := update_bar am0 b0]> (ams st)) st).
    assert (E0 : on_bars_update (s0, b0) st = (Ok Continue, st0, [])).
    { unfold on_bars_update, mbind, M_bind, read, index. cbn. by rewrite Ham0. }
    destruct (IH st0 Hwf) as (st1 & E1 & Hin1 & Hout1).
    { intros s bar Hin. cbn. destruct (decide (s0 = s)) as [->|Hne].
      - rewrite lookup_insert_eq. by eexists.
      - rewrite lookup_insert_ne by done. apply (Hknown s bar). by right. }
    exists st1. rewrite for_each_cons, E0, E1. split; [done|]. split.
    + intros s bar am [[= -> ->]|Hin]%elem_of_cons Ham.
      * rewrite Hout1 by done. cbn. rewrite lookup_insert_eq. congruence.
      * apply (Hin1 s bar am Hin). cbn. rewrite lookup_insert_ne; [done|].
        intros ->. apply Hs0. apply list_elem_of_fmap. by exists (s, bar).
    + intros s [Hne Hs]%not_elem_of_cons. rewrite Hout1 by done. cbn.
      by rewrite lookup_insert_ne.
Qed.

(** The second loop falls through when every instrument of the slice is
    warmed up and has an ATR to read. *)
Lemma symbol_loop_ok (bars : dict BarData) (st : self) :
  (∀ s bar, (s, bar) ∈ bars →
     ∃ am, ams st !! s = Some am ∧ inited am = true ∧
           atr am (atr_window (settings st)) ≠ []) →
  ∃ (st2 : self) ev, for_each bars on_bars_symbol st = (Ok Continue, st2, ev).
Proof.
  revert st. induction bars as [|[s0 b0] bars IH]; intros st Hready.
  - by exists st, [].
  - destruct (on_bars_symbol (s0, b0) st) as [[r0 st0] ev0] eqn:E0.
    pose proof (symbol_inv _ _ _ _ _ _ E0) as (Hg0 & _ & Hbody).
    destruct (Hready s0 b0) as (am0 & Ham0 & Hinit0 & Hatr0); [left|].
    rewrite Ham0, Hinit0 in Hbody.
    destruct (last (atr am0 (atr_window (settings st)))) as [a|] eqn:Elast.
    2:{ by apply last_None in Elast. }
    cbn zeta in Hbody. destruct Hbody as (-> & _).
    injection Hg0 as Hs0 _ _ Ha0 _ _ _ _.
    destruct (IH st0) as (st2 & ev & E2).
    { intros s bar Hin. rewrite Hs0, Ha0. apply (Hready s bar). by right. }
    exists st2, (ev0 ++ ev). by rewrite for_each_cons, E0, E2.
Qed.

(** A slice of distinct, known instruments, all warmed up once updated with
    their bars, runs to its rebalance. *)
Lemma on_bars_completes (v : variant) (bars : dict BarData) (st : self) :
  wf bars →
  (∀ s bar, (s, bar) ∈ bars →
     ∃ am, ams st !! s = Some am ∧ inited (update_bar am bar) = true ∧
           atr (update_bar am bar) (atr_window (settings st)) ≠ []) →
  ∃ (st' : self) ev,
    on_bars_of v bars st = (Ok tt, st', ev) ∧ EvRebalance bars ∈ ev.
Proof.
  intros Hwf Hready. rewrite on_bars_variant, on_bars_unfold.
  destruct (update_loop_ok bars st Hwf) as (st1 & E1 & Hin1 & _).
  { intros s bar Hin. destruct (Hready s bar Hin) as (am & -> & _). by eexists. }
  rewrite E1. pose proof (update_loop _ _ _ _ _ E1) as (_ & _ & Hst1).
  destruct (symbol_loop_ok bars st1) as (st2 & ev & E2).
  { intros s bar Hin. destruct (Hready s bar Hin) as (am & Ham & Hinit & Hatr).
    exists (update_bar am bar). rewrite Hst1 at 2. cbn. eauto. }
  rewrite E2. exists st2, ([] ++ ev ++ [EvRebalance bars; EvPutEvent]).
  split; [done|]. cbn [app]. apply elem_of_app. right. left.
Qed.

(** ** Comparisons *)

Lemma le_false (a b : Q) : le a b = false ↔ ¬ a <= b.
Proof.
  unfold le. rewrite <-Qle_bool_iff. by destruct (Qle_bool a b).
Qed.

Lemma gt_true (a b : Q) : gt a b = true ↔ b < a.
Proof.
  unfold gt. rewrite negb_true_iff, le_false. split.
  - apply Qnot_le_lt.
  - apply Qlt_not_le.
Qed.

Lemma gt_false (a b : Q) : gt a b = false ↔ a <= b.
Proof. unfold gt. by rewrite negb_false_iff, Qle_bool_iff. Qed.

Lemma max_ge (a b : Q) : a <= Py.max a b.
Proof.
  unfold Py.max. destruct (gt b a) eqn:E.
  - apply gt_true in E. by apply Qlt_le_weak.
  - apply Qle_refl.
Qed.

Lemma min_le (a b : Q) : Py.min a b <= a.
Proof.
  unfold Py.min, lt. destruct (negb (Qle_bool a b)) eqn:E.
  - apply (gt_true a b) in E. by apply Qlt_le_weak.
  - apply Qle_refl.
Qed.

Lemma item_lookup (m : gmap string Q) (s : string) (x : Q) :
  m !! s = Some x → item m s = x.
Proof. unfold item. by intros ->. Qed.

Lemma item_same (m m' : gmap string Q) (s : string) :
  m' !! s = m !! s → item m' s = item m s.
Proof. unfold item. by intros ->. Qed.

Lemma get_target_lookup (st : self) (s : string) (t : Z) :
  target_data st !! s = Some t → get_target st s = t.
Proof. unfold get_target. by intros ->. Qed.

Lemma called_elem (s : string) (t : Z) (ev : list Event) :
  filter (about s) ev = [EvSetTarget s t] →
  ∀ t', EvSetTarget s t' ∈ ev ↔ t' = t.
Proof.
  intros Hf t'. split.
  - intros Hin.
    assert (Hin' : EvSetTarget s t' ∈ filter (about s) ev).
    { apply list_elem_of_filter. split; [|done]. cbn. by rewrite bool_decide_eq_true_2. }
    rewrite Hf in Hin'. apply list_elem_of_singleton in Hin'. congruence.
  - intros ->.
    assert (Hin' : EvSetTarget s t ∈ filter (about s) ev) by (rewrite Hf; left).
    by apply list_elem_of_filter in Hin' as [_ ?].
Qed.

Lemma quiet_elem (s : string) (ev : list Event) :
  filter (about s) ev = [] → ∀ t, EvSetTarget s t ∉ ev.
Proof.
  intros Hf t Hin.
  assert (Hin' : EvSetTarget s t ∈ filter (about s) ev).
  { apply list_elem_of_filter. split; [|done]. cbn. by rewrite bool_decide_eq_true_2. }
  rewrite Hf in Hin'. by apply elem_of_nil in Hin'.
Qed.

Lemma slice_flat (v : variant) (bars : dict BarData) (st st' : self) r ev s bar :
  wf bars → (s, bar) ∈ bars → on_bars_of v bars st = (r, st', ev) →
  get_pos st s = 0%Z →
  untouched s bars st st' ev ∨
  (intra_trade_high st' !! s = Some (high_price bar) ∧
   intra_trade_low st' !! s = Some (low_price bar) ∧
   let x := item (rsi_data st') s in
   let size := fixed_size (settings st) in
   let evs := filter (about s) ev in
   if gt (item (atr_data st') s) (item (atr_ma st') s) then
     if gt x (rsi_buy st) then called s size st st' evs
     else if lt x (rsi_sell st) then called s (- size) st st' evs
     else called s 0 st st' evs
   else quiet s st st' evs).
Proof.
  intros Hwf Hin Hrun Hpos.
  destruct (slice_cases _ _ _ _ _ _ _ _ Hwf Hin Hrun) as (_ & _ & _ & _ & Hcase).
  destruct Hcase as [?|(am & a & Hproc)]; [by left|right].
  cbn zeta in Hproc. destruct Hproc as (_ & _ & _ & Ha & Hma & Hx & Hlogic).
  rewrite (item_lookup _ _ _ Ha), (item_lookup _ _ _ Hma), (item_lookup _ _ _ Hx).
  unfold position_logic in Hlogic. by rewrite Hpos in Hlogic.
Qed.

Lemma slice_long (v : variant) (bars : dict BarData) (st st' : self) r ev s bar :
  wf bars → (s, bar) ∈ bars → on_bars_of v bars st = (r, st', ev) →
  (get_pos st s > 0)%Z →
  untouched s bars st st' ev ∨
  (let h := Py.max (item (intra_trade_high st) s) (high_price bar) in
   let tp := trailing_percent (settings st) in
   intra_trade_high st' !! s = Some h ∧
   intra_trade_low st' !! s = Some (low_price bar) ∧
   if le (close_price bar) (h * (1 - tp / 100))
   then called s 0 st st' (filter (about s) ev)
   else quiet s st st' (filter (about s) ev)).
Proof.
  intros Hwf Hin Hrun Hpos.
  destruct (slice_cases _ _ _ _ _ _ _ _ Hwf Hin Hrun) as (_ & _ & _ & _ & Hcase).
  destruct Hcase as [?|(am & a & Hproc)]; [by left|right].
  cbn zeta in Hproc. destruct Hproc as (_ & _ & _ & _ & _ & _ & Hlogic).
  unfold position_logic in Hlogic.
  destruct (Z.eqb_spec (get_pos st s) 0) as [?|_]; [lia|].
  destruct (Z.gtb_spec (get_pos st s) 0) as [_|?]; [|lia].
  done.
Qed.

Lemma slice_short (v : variant) (bars : dict BarData) (st st' : self) r ev s bar :
  wf bars → (s, bar) ∈ bars → on_bars_of v bars st = (r, st', ev) →
  (get_pos st s < 0)%Z →
  untouched s bars st st' ev ∨
  (let l := Py.min (item (intra_trade_low st) s) (low_price bar) in
   let tp := trailing_percent (settings st) in
   intra_trade_low st' !! s = Some l ∧
   intra_trade_high st' !! s = Some (high_price bar) ∧
   if ge (close_price bar) (l * (1 + tp / 100))
   then called s 0 st st' (filter (about s) ev)
   else quiet s st st' (filter (about s) ev)).
Proof.
  intros Hwf Hin Hrun Hpos.
  destruct (slice_cases _ _ _ _ _ _ _ _ Hwf Hin Hrun) as (_ & _ & _ & _ & Hcase).
  destruct Hcase as [?|(am & a & Hproc)]; [by left|right].
  cbn zeta in Hproc. destruct Hproc as (_ & _ & _ & _ & _ & _ & Hlogic).
  unfold position_logic in Hlogic.
  destruct (Z.eqb_spec (get_pos st s) 0) as [?|_]; [lia|].
  destruct (Z.gtb_spec (get_pos st s) 0) as [?|_]; [lia|].
  done.
Qed.

(** What a slice does for an instrument that its second loop reaches: the
    indicator entries are the readings of the updated indicator state, and
    the position logic has run on the bar, whatever comes after it in the
    slice. *)
Lemma slice_reached (v : variant) (pre post : dict BarData) (s : string)
    (bar : BarData) (st st' : self) r ev :
  reaches st pre s bar post →
  on_bars_of v (pre ++ (s, bar) :: post) st = (r, st', ev) →
  settings st' = settings st ∧ rsi_buy st' = rsi_buy st ∧
  rsi_sell st' = rsi_sell st ∧ pos_data st' = pos_data st ∧
  ∃ am0 a,
    let am := update_bar am0 bar in
    let ma := mean (tail_slice (atr_ma_window (settings st))
                      (atr am (atr_window (settings st)))) in
    let x := rsi am (rsi_window (settings st)) in
    ams st !! s = Some am0 ∧ ams st' !! s = Some am ∧
    last (atr am (atr_window (settings st))) = Some a ∧
    atr_data st' !! s = Some a ∧
    atr_ma st' !! s = Some ma ∧
    rsi_data st' !! s = Some x ∧
    position_logic s bar a ma x st st' (filter (about s) ev).
Proof.
  intros (Hwf & Hknown & Hready) Hrun.
  pose proof (on_bars_keeps _ _ _ _ _ _ Hrun) as (Hset & Hbuy & Hsell & Hpos).
  repeat (split; [done|]).
  revert Hrun. rewrite on_bars_variant, on_bars_unfold.
  destruct (update_loop_ok _ st Hwf Hknown) as (st1 & E1 & Hin1 & _).
  rewrite E1. pose proof (update_loop _ _ _ _ _ E1) as (_ & _ & Hst1).
  assert (Hs1 : settings st1 = settings st ∧ rsi_buy st1 = rsi_buy st ∧
                rsi_sell st1 = rsi_sell st ∧ pos_data st1 = pos_data st ∧
                locals s st1 = locals s st) by (by rewrite Hst1).
  destruct Hs1 as (Hset1 & Hbuy1 & Hsell1 & Hpos1 & Hloc1).
  (* the instruments before [s] fall through *)
  rewrite for_each_app.
  destruct (symbol_loop_ok pre st1) as (stp & evp & Ep).
  { intros s' b' Hin.
    destruct (Hready s' b') as (am & Ham & Hinit & Hatr).
    { apply elem_of_app. by left. }
    exists (update_bar am b'). rewrite Hset1. split; [|done].
    apply (Hin1 s' b' am); [|done]. apply elem_of_app. by left. }
  rewrite Ep. pose proof (symbol_loop _ _ _ _ _ Ep) as (Hgp & _ & Hlp).
  assert (Hnd : (s ∉ keys pre) ∧ (s ∉ keys post)).
  { unfold wf, keys in Hwf. rewrite fmap_app, fmap_cons in Hwf. cbn in Hwf.
    apply NoDup_app in Hwf as (_ & Hdis & Hpost).
    apply NoDup_cons in Hpost as [Hpost _]. split; [|done].
    intros Hin. apply (Hdis s Hin). left. }
  destruct Hnd as [Hpre Hpost].
  destruct (Hlp s Hpre) as [Hlocp Hevp].
  injection Hgp as Hsetp Hbuyp Hsellp Hamsp Hposp _ _ _.
  (* the body of the loop runs on [s] *)
  destruct (Hready s bar) as (am0 & Ham0 & Hinit & Hatr).
  { apply elem_of_app. right. left. }
  assert (Hams1 : ams st1 !! s = Some (update_bar am0 bar)).
  { apply (Hin1 s bar am0); [|done]. apply elem_of_app. right. left. }
  rewrite for_each_cons.
  destruct (on_bars_symbol (s, bar) stp) as [[rs sts] evs] eqn:Es.
  pose proof (symbol_events _ _ _ _ _ _ Es) as Hevs.
  apply symbol_inv in Es as (Hgs & _ & Hbody).
  rewrite Hamsp, Hams1, Hinit, Hsetp, Hset1 in Hbody.
  destruct (last (atr (update_bar am0 bar) (atr_window (settings st))))
    as [a|] eqn:Elast.
  2:{ by apply last_None in Elast. }
  cbn zeta in Hbody. destruct Hbody as (-> & Ha & Hma & Hx & Hlogic).
  injection Hgs as _ _ _ Hamss _ _ _ _.
  (* the rest of the slice leaves [s] alone *)
  destruct (for_each post on_bars_symbol sts) as [[r2 st2] ev2] eqn:E2.
  apply symbol_loop in E2 as (Hg2 & _ & Hl2).
  destruct (Hl2 s Hpost) as [Hloc2 Hev2].
  injection Hg2 as _ _ _ Hams2 _ _ _ _.
  assert (Hfin : ∀ ev,
            filter (about s) ev = evs →
            ∃ am0 a,
              let am := update_bar am0 bar in
              let ma := mean (tail_slice (atr_ma_window (settings st))
                                (atr am (atr_window (settings st)))) in
              let x := rsi am (rsi_window (settings st)) in
              ams st !! s = Some am0 ∧ ams st2 !! s = Some am ∧
              last (atr am (atr_window (settings st))) = Some a ∧
              atr_data st2 !! s = Some a ∧
              atr_ma st2 !! s = Some ma ∧
              rsi_data st2 !! s = Some x ∧
              position_logic s bar a ma x st st2 (filter (about s) ev)).
  { intros ev' ->. exists am0, a. cbn zeta.
    pose proof Hloc2 as Hfields. injection Hfields as Ha2 Hma2 Hx2 _ _ _.
    split; [done|]. split; [by rewrite Hams2, Hamss, Hamsp|].
    split; [done|]. repeat (split; [congruence|]).
    apply (position_logic_transfer s bar _ _ _ stp sts st st2); congruence. }
  destruct r2 as [[]|e]; intros [= <- <- <-]; apply Hfin; cbn [app];
    rewrite !filter_app, Hevp, Hev2, (about_self s evs Hevs); cbn;
    by rewrite ?app_nil_r.
Qed.



Lemma reached_flat (v : variant) (pre post : dict BarData) (s : string)
    (bar : BarData) (st st' : self) r ev :
  reaches st pre s bar post →
  on_bars_of v (pre ++ (s, bar) :: post) st = (r, st', ev) →
  get_pos st s = 0%Z →
  intra_trade_high st' !! s = Some (high_price bar) ∧
  intra_trade_low st' !! s = Some (low_price bar) ∧
  let x := item (rsi_data st') s in
  let size := fixed_size (settings st) in
  let evs := filter (about s) ev in
  if gt (item (atr_data st') s) (item (atr_ma st') s) then
    if gt x (rsi_buy st) then called s size st st' evs
    else if lt x (rsi_sell st) then called s (- size) st st' evs
    else called s 0 st st' evs
  else quiet s st st' evs.
Proof.
  intros Hreach Hrun Hpos.
  destruct (slice_reached _ _ _ _ _ _ _ _ _ Hreach Hrun)
    as (_ & _ & _ & _ & am0 & a & Hproc).
  cbn zeta in Hproc. destruct Hproc as (_ & _ & _ & Ha & Hma & Hx & Hlogic).
  rewrite (item_lookup _ _ _ Ha), (item_lookup _ _ _ Hma), (item_lookup _ _ _ Hx).
  unfold position_logic in Hlogic. by rewrite Hpos in Hlogic.
Qed.

Lemma reached_long (v : variant) (pre post : dict BarData) (s : string)
    (bar : BarData) (st st' : self) r ev :
  reaches st pre s bar post →
  on_bars_of v (pre ++ (s, bar) :: post) st = (r, st', ev) →
  (get_pos st s > 0)%Z →
  let h := Py.max (item (intra_trade_high st) s) (high_price bar) in
  let tp := trailing_percent (settings st) in
  intra_trade_high st' !! s = Some h ∧
  intra_trade_low st' !! s = Some (low_price bar) ∧
  if le (close_price bar) (h * (1 - tp / 100))
  then called s 0 st st' (filter (about s) ev)
  else quiet s st st' (filter (about s) ev).
Proof.
  intros Hreach Hrun Hpos.
  destruct (slice_reached _ _ _ _ _ _ _ _ _ Hreach Hrun)
    as (_ & _ & _ & _ & am0 & a & Hproc).
  cbn zeta in Hproc. destruct Hproc as (_ & _ & _ & _ & _ & _ & Hlogic).
  unfold position_logic in Hlogic.
  destruct (Z.eqb_spec (get_pos st s) 0) as [?|_]; [lia|].
  destruct (Z.gtb_spec (get_pos st s) 0) as [_|?]; [|lia].
  done.
Qed.

Lemma reached_short (v : variant) (pre post : dict BarData) (s : string)
    (bar : BarData) (st st' : self) r ev :
  reaches st pre s bar post →
  on_bars_of v (pre ++ (s, bar) :: post) st = (r, st', ev) →
  (get_pos st s < 0)%Z →
  let l := Py.min (item (intra_trade_low st) s) (low_price bar) in
  let tp := trailing_percent (settings st) in
  intra_trade_low st' !! s = Some l ∧
  intra_trade_high st' !! s = Some (high_price bar) ∧
  if ge (close_price bar) (l * (1 + tp / 100))
  then called s 0 st st' (filter (about s) ev)
  else quiet s st st' (filter (about s) ev).
Proof.
  intros Hreach Hrun Hpos.
  destruct (slice_reached _ _ _ _ _ _ _ _ _ Hreach Hrun)
    as (_ & _ & _ & _ & am0 & a & Hproc).
  cbn zeta in Hproc. destruct Hproc as (_ & _ & _ & _ & _ & _ & Hlogic).
  unfold position_logic in Hlogic.
  destruct (Z.eqb_spec (get_pos st s) 0) as [?|_]; [lia|].
  destruct (Z.gtb_spec (get_pos st s) 0) as [?|_]; [lia|].
  done.
Qed.

(** Slices and fills leave the settings and the thresholds alone. *)
Lemma evolves_keeps (v : variant) (st st' : self) :
  evolves v st st' →
  settings st' = settings st ∧ rsi_buy st' = rsi_buy st ∧
  rsi_sell st' = rsi_sell st.
Proof.
  induction 1 as [st|bars st r st1 ev st2 Hrun _ IH|pos st st2 _ IH].
  - done.
  - apply on_bars_keeps in Hrun as (Hs & Hb & Hl & _).
    destruct IH as (-> & -> & ->). done.
  - exact IH.
Qed.

(** The three-way entry decision on the thresholds [buy] and [sell]. *)
Lemma entry_cascade (s : string) (st st' : self) (ev : list Event) (x buy sell : Q) :
  (if gt x buy then called s (fixed_size (settings st)) st st' (filter (about s) ev)
   else if lt x sell
        then called s (- fixed_size (settings st)) st st' (filter (about s) ev)
        else called s 0 st st' (filter (about s) ev)) →
  let target_set t :=
    (∀ t', EvSetTarget s t' ∈ ev ↔ t' = t) ∧ get_target st' s = t in
  (buy < x → target_set (fixed_size (settings st))) ∧
  (¬ buy < x → x < sell → target_set (- fixed_size (settings st))%Z) ∧
  (¬ buy < x → ¬ x < sell → target_set 0%Z).
Proof.
  intros Hlogic target_set.
  assert (Hcall : ∀ t, called s t st st' (filter (about s) ev) → target_set t).
  { intros t [Hev Ht]. split; [by apply called_elem|by apply get_target_lookup]. }
  destruct (gt x buy) eqn:Eb.
  - apply gt_true in Eb. split; [intros _; by apply Hcall|]. split; by intros [].
  - assert (Hnb : ¬ buy < x) by (by rewrite <-gt_true, Eb).
    split; [done|].
    destruct (lt x sell) eqn:Es.
    + apply (gt_true sell x) in Es.
      split; [intros _ _; by apply Hcall|by intros _ []].
    + assert (Hns : ¬ x < sell)
        by (by rewrite <-(gt_true sell x); unfold lt in Es; unfold gt; rewrite Es).
      split; [done|]. intros _ _. by apply Hcall.
Qed.

(** C4 (as the code has it).  For an instrument of the slice with position 0
    whose ATR is at most its ATR moving average, the slice makes no
    [set_target] call and leaves its target as it was, whatever the RSI: a
    target of 0 stays 0 (and a pending one stays pending). *)
Theorem gate_blocks_entry (v : variant) (bars : dict BarData) (st st' : self)
    r ev (s : string) (bar : BarData) :
  wf bars → (s, bar) ∈ bars →
  on_bars_of v bars st = (r, st', ev) →
  get_pos st s = 0%Z →
  item (atr_data st') s <= item (atr_ma st') s →
  (∀ t, EvSetTarget s t ∉ ev) ∧
  get_target st' s = get_target st s ∧
  (get_target st s = 0%Z → get_target st' s = 0%Z).
Proof.
  intros Hwf Hin Hrun Hpos Hgate.
  assert (Hquiet : quiet s st st' (filter (about s) ev)).
  { destruct (slice_flat _ _ _ _ _ _ _ _ Hwf Hin Hrun Hpos)
      as [(Hloc & Hev & _)|Hproc].
    - split; [done|]. by injection Hloc as _ _ _ _ _ ->.
    - cbn zeta in Hproc. destruct Hproc as (_ & _ & Hlogic).
      apply gt_false in Hgate. by rewrite Hgate in Hlogic. }
  destruct Hquiet as [Hev Ht]. split; [by apply quiet_elem|].
  unfold get_target. rewrite Ht. done.
Qed.

(** C5 (as the code has it).  For an instrument that the second loop of
    [on_bars] reaches, whatever comes after it in the slice,
    [set_target(s, 0)] is called when it is held long exactly when
    [bar.close <= intra_trade_high * (1 - trailing_percent / 100)], and when
    it is held short exactly when
    [bar.close >= intra_trade_low * (1 + trailing_percent / 100)], the
    extremes being those the slice has just updated; the call leaves the
    target at 0. *)
Theorem trailing_stop_iff (v : variant) (pre post : dict BarData) (s : string)
    (bar : BarData) (st st' : self) r ev :
  reaches st pre s bar post →
  on_bars_of v (pre ++ (s, bar) :: post) st = (r, st', ev) →
  let tp := trailing_percent (settings st) in
  ((get_pos st s > 0)%Z →
     (EvSetTarget s 0 ∈ ev ↔
        close_price bar <= item (intra_trade_high st') s * (1 - tp / 100)) ∧
     (EvSetTarget s 0 ∈ ev → get_target st' s = 0%Z)) ∧
  ((get_pos st s < 0)%Z →
     (EvSetTarget s 0 ∈ ev ↔
        item (intra_trade_low st') s * (1 + tp / 100) <= close_price bar) ∧
     (EvSetTarget s 0 ∈ ev → get_target st' s = 0%Z)).
Proof.
  intros Hreach Hrun tp. split; intros Hpos.
  - destruct (reached_long _ _ _ _ _ _ _ _ _ Hreach Hrun Hpos) as (Hh & _ & Hstop).
    rewrite (item_lookup _ _ _ Hh). fold tp in Hstop.
    destruct (le _ _) eqn:E.
    + apply Qle_bool_iff in E. destruct Hstop as [Hev Ht].
      split; [|intros _; by apply get_target_lookup].
      split; [done|]. intros _. by apply (called_elem _ _ _ Hev).
    + apply le_false in E. destruct Hstop as [Hev _].
      split; [split; [|done]|]; by intros ?%(quiet_elem _ _ Hev).
  - destruct (reached_short _ _ _ _ _ _ _ _ _ Hreach Hrun Hpos) as (Hl & _ & Hstop).
    rewrite (item_lookup _ _ _ Hl). fold tp in Hstop.
    destruct (ge _ _) eqn:E.
    + apply Qle_bool_iff in E. destruct Hstop as [Hev Ht].
      split; [|intros _; by apply get_target_lookup].
      split; [done|]. intros _. by apply (called_elem _ _ _ Hev).
    + apply (le_false _ (close_price bar)) in E. destruct Hstop as [Hev _].
      split; [split; [|done]|]; by intros ?%(quiet_elem _ _ Hev).
Qed.

(** The favourable extreme of an open position never moves back in a slice,
    whether or not the slice reaches the instrument. *)
Lemma slice_high_mono (v : variant) (bars : dict BarData) (st st' : self) r ev s :
  wf bars → on_bars_of v bars st = (r, st', ev) → (get_pos st s > 0)%Z →
  item (intra_trade_high st) s <= item (intra_trade_high st') s.
Proof.
  intros Hwf Hrun Hpos. destruct (decide (s ∈ keys bars)) as [Hin|Hout].
  - apply list_elem_of_fmap in Hin as ([s' bar] & -> & Hin). cbn in *.
    destruct (slice_long _ _ _ _ _ _ _ _ Hwf Hin Hrun Hpos)
      as [(Hloc & _ & _)|Hproc].
    + injection Hloc as _ _ _ Hh _ _. rewrite (item_same _ _ _ Hh). apply Qle_refl.
    + cbn zeta in Hproc. destruct Hproc as (Hh & _ & _).
      rewrite (item_lookup _ _ _ Hh). apply max_ge.
  - destruct (slice_absent _ _ _ _ _ _ _ Hout Hrun) as [Hloc _].
    injection Hloc as _ _ _ Hh _ _. rewrite (item_same _ _ _ Hh). apply Qle_refl.
Qed.

Lemma slice_low_mono (v : variant) (bars : dict BarData) (st st' : self) r ev s :
  wf bars → on_bars_of v bars st = (r, st', ev) → (get_pos st s < 0)%Z →
  item (intra_trade_low st') s <= item (intra_trade_low st) s.
Proof.
  intros Hwf Hrun Hpos. destruct (decide (s ∈ keys bars)) as [Hin|Hout].
  - apply list_elem_of_fmap in Hin as ([s' bar] & -> & Hin). cbn in *.
    destruct (slice_short _ _ _ _ _ _ _ _ Hwf Hin Hrun Hpos)
      as [(Hloc & _ & _)|Hproc].
    + injection Hloc as _ _ _ _ Hl _. rewrite (item_same _ _ _ Hl). apply Qle_refl.
    + cbn zeta in Hproc. destruct Hproc as (Hl & _ & _).
      rewrite (item_lookup _ _ _ Hl). apply min_le.
  - destruct (slice_absent _ _ _ _ _ _ _ Hout Hrun) as [Hloc _].
    injection Hloc as _ _ _ _ Hl _. rewrite (item_same _ _ _ Hl). apply Qle_refl.
Qed.


(** What a slice does to an instrument with an open position: at most one
    call, [set_target(s, 0)], made exactly when the stop is hit. *)
Lemma slice_open (v : variant) (bars : dict BarData) (st st' : self) r ev s bar :
  wf bars → (s, bar) ∈ bars → on_bars_of v bars st = (r, st', ev) →
  get_pos st s ≠ 0%Z →
  (stop_hit s bar st st' ∧ called s 0 st st' (filter (about s) ev))
  ∨ ((EvRebalance bars ∈ ev → ¬ stop_hit s bar st st') ∧
     quiet s st st' (filter (about s) ev)).
Proof.
  intros Hwf Hin Hrun Hpos. unfold stop_hit.
  destruct (Z.lt_trichotomy (get_pos st s) 0) as [Hneg|[?|Hlong]]; [|done|].
  - destruct (slice_short _ _ _ _ _ _ _ _ Hwf Hin Hrun Hneg)
      as [(Hloc & Hev & Hno)|Hproc].
    + right. split; [done|]. split; [done|]. by injection Hloc as _ _ _ _ _ ->.
    + cbn zeta in Hproc. destruct Hproc as (Hl & _ & Hstop).
      rewrite (item_lookup _ _ _ Hl). destruct (ge _ _) eqn:E.
      * apply Qle_bool_iff in E. left. split; [by right|done].
      * apply (le_false _ (close_price bar)) in E. right. split; [|done].
        intros _ [[? _]|[_ ?]]; [lia|done].
  - destruct (slice_long _ _ _ _ _ _ _ _ Hwf Hin Hrun)
      as [(Hloc & Hev & Hno)|Hproc]; [lia| |].
    + right. split; [done|]. split; [done|]. by injection Hloc as _ _ _ _ _ ->.
    + cbn zeta in Hproc. destruct Hproc as (Hh & _ & Hstop).
      rewrite (item_lookup _ _ _ Hh). destruct (le _ _) eqn:E.
      * apply Qle_bool_iff in E. left. split; [left; split; [lia|done]|done].
      * apply le_false in E. right. split; [|done].
        intros _ [[_ ?]|[? _]]; [done|lia].
Qed.

(** C7.  For an instrument whose position is not 0, whatever the slice and
    however it ends: every [set_target] call made for it has target 0 and
    comes with a bar of the slice that hits its trailing stop; its target is
    either unchanged or 0; and it changes only through such a call. *)
Theorem open_position_only_exits (v : variant) (bars : dict BarData)
    (st st' : self) r ev (s : string) :
  wf bars →
  on_bars_of v bars st = (r, st', ev) →
  get_pos st s ≠ 0%Z →
  (∀ t, EvSetTarget s t ∈ ev →
     t = 0%Z ∧ ∃ bar, (s, bar) ∈ bars ∧ stop_hit s bar st st') ∧
  (target_data st' !! s = target_data st !! s ∨ target_data st' !! s = Some 0%Z) ∧
  (target_data st' !! s ≠ target_data st !! s → EvSetTarget s 0 ∈ ev).
Proof.
  intros Hwf Hrun Hpos.
  destruct (decide (s ∈ keys bars)) as [Hin|Hout].
  - apply list_elem_of_fmap in Hin as ([s' bar] & -> & Hin). cbn in *.
    destruct (slice_open _ _ _ _ _ _ _ _ Hwf Hin Hrun Hpos)
      as [(Hhit & Hev & Ht)|(_ & Hev & Ht)].
    + split; [|split; [by right|]].
      * intros t Ht'. apply (called_elem _ _ _ Hev) in Ht'. split; [done|]. by exists bar.
      * intros _. by apply (called_elem _ _ _ Hev).
    + split; [|split; [by left|done]].
      intros t Ht'. by apply (quiet_elem _ _ Hev) in Ht'.
  - destruct (slice_absent _ _ _ _ _ _ _ Hout Hrun) as [Hloc Hev].
    injection Hloc as _ _ _ _ _ Ht.
    split; [|split; [by left|done]].
    intros t Ht'. by apply (quiet_elem _ _ Hev) in Ht'.
Qed.

(** C10.  A slice makes at most one [set_target] call per instrument.  For
    an instrument that is flat with its ATR at most its ATR moving average,
    or that is held without its trailing stop being hit, it makes none, and
    the stored target is left as it was. *)
Theorem no_call_leaves_target (v : variant) (bars : dict BarData)
    (st st' : self) r ev (s : string) (bar : BarData) :
  wf bars → (s, bar) ∈ bars →
  on_bars_of v bars st = (r, st', ev) →
  (length (filter (about s) ev) ≤ 1)%nat ∧
  ((get_pos st s = 0%Z ∧ item (atr_data st') s <= item (atr_ma st') s)
   ∨ (get_pos st s ≠ 0%Z ∧ ¬ stop_hit s bar st st') →
   (∀ t, EvSetTarget s t ∉ ev) ∧
   target_data st' !! s = target_data st !! s).
Proof.
  intros Hwf Hin Hrun.
  destruct (decide (get_pos st s = 0%Z)) as [Hpos|Hpos].
  - destruct (slice_flat _ _ _ _ _ _ _ _ Hwf Hin Hrun Hpos)
      as [(Hloc & Hev & Hno)|Hproc].
    + split; [rewrite Hev; cbn; lia|]. intros _.
      split; [by apply quiet_elem|]. by injection Hloc as _ _ _ _ _ ->.
    + cbn zeta in Hproc. destruct Hproc as (_ & _ & Hlogic).
      destruct (gt (item (atr_data st') s) (item (atr_ma st') s)) eqn:Egate.
      * split.
        { repeat match type of Hlogic with
                 | if ?b then _ else _ => destruct b
                 end; destruct Hlogic as [-> _]; cbn; lia. }
        apply gt_true in Egate.
        intros [[_ Hle]|[? _]]; [|done]. by apply Qlt_not_le in Egate.
      * destruct Hlogic as [Hev Ht]. split; [rewrite Hev; cbn; lia|].
        intros _. split; [by apply quiet_elem|done].
  - destruct (slice_open _ _ _ _ _ _ _ _ Hwf Hin Hrun Hpos)
      as [(Hhit & Hev & Ht)|(Hmiss & Hev & Ht)].
    + split; [rewrite Hev; cbn; lia|].
      intros [[? _]|[_ ?]]; done.
    + split; [rewrite Hev; cbn; lia|].
      intros _. split; [by apply quiet_elem|done].
Qed.

(** C3 (as the code has it).  For an instrument with position 0 that the
    second loop of [on_bars] reaches, whatever comes after it in the slice,
    and whose ATR exceeds its ATR moving average, exactly one [set_target]
    call is made: with [+fixed_size] if its RSI is above [rsi_buy]; else with
    [-fixed_size] if its RSI is below [rsi_sell]; else with 0.  On an object
    that [MeanReversionStrategy.on_init] has initialised, the thresholds are
    [50 + rsi_entry] and [50 - rsi_entry] ever after; for a non-negative
    [rsi_entry] they do not cross, and an RSI below [50 - rsi_entry] alone
    gives [-fixed_size]. *)
Theorem entry_signal (v : variant) (pre post : dict BarData) (s : string)
    (bar : BarData) (st st' : self) r ev :
  reaches st pre s bar post →
  on_bars_of v (pre ++ (s, bar) :: post) st = (r, st', ev) →
  get_pos st s = 0%Z →
  item (atr_ma st') s < item (atr_data st') s →
  let x := item (rsi_data st') s in
  let size := fixed_size (settings st) in
  let target_set t :=
    (∀ t', EvSetTarget s t' ∈ ev ↔ t' = t) ∧ get_target st' s = t in
  let cascade buy sell :=
    (buy < x → target_set size) ∧
    (¬ buy < x → x < sell → target_set (- size)%Z) ∧
    (¬ buy < x → ¬ x < sell → target_set 0%Z) in
  cascade (rsi_buy st) (rsi_sell st) ∧
  (∀ st0 : self,
     evolves MeanReversion (MeanReversionStrategy.on_init st0).1.2 st →
     let entry := rsi_entry (settings st) in
     cascade (50 + entry) (50 - entry) ∧
     (0 <= entry → x < 50 - entry → target_set (- size)%Z)).
Proof.
  intros Hreach Hrun Hpos Hgate x size target_set cascade.
  destruct (reached_flat _ _ _ _ _ _ _ _ _ Hreach Hrun Hpos) as (_ & _ & Hlogic).
  cbn zeta in Hlogic. apply gt_true in Hgate. rewrite Hgate in Hlogic.
  apply entry_cascade in Hlogic. cbn zeta in Hlogic.
  split; [exact Hlogic|].
  intros st0 Hev entry.
  apply evolves_keeps in Hev as (Hset & Hbuy & Hsell).
  assert (Hb : rsi_buy st = 50 + entry) by (by rewrite Hbuy; unfold entry; rewrite Hset).
  assert (Hs : rsi_sell st = 50 - entry) by (by rewrite Hsell; unfold entry; rewrite Hset).
  rewrite Hb, Hs in Hlogic. split; [exact Hlogic|].
  destruct Hlogic as (_ & H2 & _).
  intros Hentry Hlow. apply H2; [|done].
  intros Hhigh. apply (Qlt_irrefl x).
  apply Qlt_trans with (50 - entry); [done|].
  apply Qle_lt_trans with (50 + entry); [|done].
  apply Qplus_le_r. apply Qle_trans with 0; [|done].
  by apply (Qopp_le_compat 0 entry).
Qed.


(** The indicator states a slice leaves are those of its first loop. *)
Lemma on_bars_ams (bars : dict BarData) (st st' : self) r ev :
  QuadProgStrategy.on_bars bars st = (r, st', ev) →
  ams st' = ams (for_each bars QuadProgStrategy.on_bars_update st).1.2.
Proof.
  rewrite on_bars_unfold.
  destruct (for_each _ QuadProgStrategy.on_bars_update st) as [[r1 st1] ev1] eqn:E1.
  destruct r1 as [f|e]; [|by intros [= <- <- <-]].
  destruct (for_each bars QuadProgStrategy.on_bars_symbol st1)
    as [[r2 st2] ev2] eqn:E2.
  apply symbol_loop in E2 as (Hg2 & _ & _). injection Hg2 as _ _ _ Ha _ _ _ _.
  by destruct r2 as [[]|e]; intros [= <- <- <-].
Qed.


End Slices.

(** ** The two classes side by side *)

Section Variants.
Context {AM S F : Type} `{!ArrayManager AM} `{!Pandas S F}.
Local Abbreviation self := (Strategy AM S).

Lemma portfolio_return_list_ok (st : self) (l : dict Q) (series : list S) :
  Forall2 (weighted st) l series →
  QuadProgStrategy.portfolio_return_list l st = (Ok series, st, []).
Proof.
  induction 1 as [|[k x] sr l series (prices & w & Hp & Hw & ->) _ IH].
  - done.
  - cbn in Hp, Hw. cbn [QuadProgStrategy.portfolio_return_list].
    unfold mbind, M_bind, read, index. cbn. rewrite Hp. cbn. rewrite Hw. cbn.
    unfold mbind, M_bind in IH. by rewrite IH.
Qed.

Lemma pass_loop {A} (l : list A) (body : A → M (AM:=AM) (S:=S) flow) (st : self) :
  (∀ x st, body x st = (Ok Continue, st, [])) →
  for_each l body st = (Ok Continue, st, []).
Proof.
  intros Hbody. induction l as [|x l IH]; [done|].
  by rewrite for_each_cons, Hbody, IH.
Qed.

Lemma mean_reversion_unit_var (st : self) :
  MeanReversionStrategy.calculate_unit_var (F:=F) st = (Ok None, st, []).
Proof.
  unfold MeanReversionStrategy.calculate_unit_var, mbind, M_bind, read. cbn.
  rewrite pass_loop; [done|]. by intros [].
Qed.

Lemma quadprog_unit_var (st : self) (series : list S) (combined : S) (x : F) :
  Forall2 (weighted st) (signal_strength st) series →
  concat_sum series = Some combined →
  ewm_std_last (lookback_var (settings st)) combined = Some x →
  QuadProgStrategy.calculate_unit_var st = (Ok x, st, []).
Proof.
  intros Hl Hc Hx.
  unfold QuadProgStrategy.calculate_unit_var, mbind, M_bind, read. cbn.
  rewrite (portfolio_return_list_ok _ _ _ Hl). cbn. rewrite Hc. cbn. by rewrite Hx.
Qed.


Lemma quadprog_on_init (st : self) :
  QuadProgStrategy.on_init st =
    (Ok tt, st,
     [EvLoadBars 10;
      EvWriteLog ("Portfolio Strategy " +:+ strategy_name (settings st)
                    +:+ " initialized")]).
Proof. done. Qed.




End Variants.

(** * Further properties of the code *)

(** ** More on a bar slice *)

Section MoreSlices.
Context {AM S : Type} `{!ArrayManager AM}.
Local Abbreviation self := (Strategy AM S).
Import QuadProgStrategy StrategyTemplate.

(** The first loop only ever assigns the indicator states of the instruments
    it has met. *)
Lemma update_loop_frame (bars : dict BarData) (st st1 : self) r ev s :
  for_each bars on_bars_update st = (r, st1, ev) →
  s ∉ keys bars → ams st1 !! s = ams st !! s.
Proof.
  revert st. induction bars as [|[s0 b0] bars IH]; intros st.
  - rewrite for_each_nil. by intros [= <- <- <-].
  - rewrite for_each_cons. intros Hrun [Hne Hs]%not_elem_of_cons.
    destruct (on_bars_update (s0, b0) st) as [[r0 st0] ev0] eqn:E0.
    apply update_inv in E0 as [-> E0].
    destruct (ams st !! s0) as [am|]; destruct E0 as [-> ->].
    + destruct (for_each bars on_bars_update _) as [[r1 st2] ev1] eqn:E1.
      injection Hrun as <- <- <-. rewrite (IH _ E1 Hs). cbn.
      by rewrite lookup_insert_ne.
    + by injection Hrun as <- <- <-.
Qed.

(** Where the first loop succeeds, every instrument of the slice was known
    and its indicator state has taken its bar. *)
Lemma update_loop_at (bars : dict BarData) (st st1 : self) f ev s bar :
  wf bars → (s, bar) ∈ bars →
  for_each bars on_bars_update st = (Ok f, st1, ev) →
  ∃ am, ams st !! s = Some am ∧ ams st1 !! s = Some (update_bar am bar).
Proof.
  unfold wf, keys. revert st.
  induction bars as [|[s0 b0] bars IH]; intros st Hwf Hin.
  { by apply elem_of_nil in Hin. }
  cbn in Hwf. apply NoDup_cons in Hwf as [Hs0 Hwf].
  rewrite for_each_cons.
  destruct (on_bars_update (s0, b0) st) as [[r0 st0] ev0] eqn:E0.
  apply update_inv in E0 as [-> E0].
  destruct (ams st !! s0) as [am0|] eqn:Eam; destruct E0 as [-> ->]; [|done].
  destruct (for_each bars on_bars_update _) as [[r1 st2] ev1] eqn:E1.
  intros [= -> <- <-].
  apply elem_of_cons in Hin as [[= -> ->]|Hin].
  - exists am0. split; [done|].
    rewrite (update_loop_frame _ _ _ _ _ _ E1 Hs0). cbn. by rewrite lookup_insert_eq.
  - destruct (IH _ Hwf Hin E1) as (am & Ham & Ham1). exists am. split; [|done].
    cbn in Ham. rewrite lookup_insert_ne in Ham; [done|].
    intros ->. apply Hs0. apply list_elem_of_fmap. by exists (s, bar).
Qed.

(** X1.  A slice that contains an instrument the strategy has no
    [ArrayManager] for raises [KeyError] for the first such instrument, from
    the first loop: no call is made and no entry is assigned, but the
    indicator states of the instruments iterated before it have already
    taken their bars. *)
Theorem unknown_instrument (v : variant) (pre post : dict BarData) (k : string)
    (bar : BarData) (st : self) :
  wf pre →
  (∀ s b, (s, b) ∈ pre → is_Some (ams st !! s)) →
  ams st !! k = None →
  ∃ st' : self,
    on_bars_of v (pre ++ (k, bar) :: post) st = (Raise (KeyError k), st', []) ∧
    st' = with_ams (ams st') st ∧
    (∀ s b am, (s, b) ∈ pre → ams st !! s = Some am →
       ams st' !! s = Some (update_bar am b)) ∧
    (∀ s, s ∉ keys pre → ams st' !! s = ams st !! s).
Proof.
  intros Hwf Hknown Hk.
  destruct (update_loop_ok pre st Hwf Hknown) as (st1 & E1 & Hin1 & Hout1).
  exists st1. rewrite on_bars_variant, on_bars_unfold, for_each_app, E1.
  rewrite for_each_cons.
  assert (Hk1 : ams st1 !! k = None).
  { rewrite Hout1; [done|]. intros ([s b] & -> & Hin)%list_elem_of_fmap.
    destruct (Hknown _ _ Hin) as [am Ham]. cbn in Hk. congruence. }
  assert (E : on_bars_update (k, bar) st1 = (Raise (KeyError k), st1, [])).
  { unfold on_bars_update, mbind, M_bind, read, index. cbn. by rewrite Hk1. }
  rewrite E. split; [done|].
  by apply update_loop in E1 as (_ & _ & ?).
Qed.

(** X3.  In a slice of distinct, known instruments, however it ends, the
    indicator state of every instrument of the slice has taken its bar
    exactly once, and no other indicator state has changed. *)
Theorem indicators_updated (v : variant) (bars : dict BarData) (st st' : self) r ev :
  wf bars →
  (∀ s b, (s, b) ∈ bars → is_Some (ams st !! s)) →
  on_bars_of v bars st = (r, st', ev) →
  (∀ s b am, (s, b) ∈ bars → ams st !! s = Some am →
     ams st' !! s = Some (update_bar am b)) ∧
  (∀ s, s ∉ keys bars → ams st' !! s = ams st !! s).
Proof.
  intros Hwf Hknown Hrun. rewrite on_bars_variant in Hrun.
  rewrite (on_bars_ams _ _ _ _ _ Hrun).
  destruct (update_loop_ok bars st Hwf Hknown) as (st1 & E1 & Hin1 & Hout1).
  by rewrite E1.
Qed.

(** Every event of the second loop is a [set_target] call, and the
    instruments called follow the order of the slice. *)
Lemma symbol_loop_order (bars : dict BarData) (st st' : self) r ev :
  for_each bars on_bars_symbol st = (r, st', ev) →
  omap callee ev `sublist_of` keys bars.
Proof.
  revert st r st' ev. induction bars as [|[s0 b0] bars IH]; intros st r st' ev.
  - rewrite for_each_nil. by intros [= <- <- <-].
  - rewrite for_each_cons.
    destruct (on_bars_symbol (s0, b0) st) as [[r0 st0] ev0] eqn:E0.
    apply symbol_events in E0.
    assert (H0 : ∀ rest, rest `sublist_of` keys bars →
              omap callee ev0 ++ rest `sublist_of` keys ((s0, b0) :: bars)).
    { intros rest Hrest. destruct E0 as [->|[t ->]]; cbn.
      - by apply sublist_cons.
      - by apply sublist_skip. }
    destruct r0 as [[]|e].
    + destruct (for_each bars on_bars_symbol st0) as [[r1 st1] ev1] eqn:E1.
      intros [= <- <- <-]. rewrite omap_app. apply H0. by eapply IH.
    + intros [= <- <- <-]. rewrite <-(app_nil_r (omap _ _)). apply H0.
      apply sublist_nil_l.
    + intros [= <- <- <-]. rewrite <-(app_nil_r (omap _ _)). apply H0.
      apply sublist_nil_l.
Qed.

(** X5.  However a slice ends, the instruments of its [set_target] calls
    are a subsequence of the instruments of the slice, in its order (at most
    one call per entry of the slice), and [rebalance_portfolio] and
    [put_event], if called, come once, last, in that order. *)
Theorem calls_follow_slice (v : variant) (bars : dict BarData) (st st' : self) r ev :
  on_bars_of v bars st = (r, st', ev) →
  omap callee ev `sublist_of` keys bars ∧
  ∃ calls, Forall is_set_target calls ∧
    (ev = calls ∨ ev = calls ++ [EvRebalance bars; EvPutEvent]).
Proof.
  rewrite on_bars_variant, on_bars_unfold.
  destruct (for_each bars on_bars_update st) as [[r1 st1] ev1] eqn:E1.
  apply update_loop in E1 as (-> & _ & _).
  destruct r1 as [f|e].
  2:{ intros [= <- <- <-]. split; [apply sublist_nil_l|]. exists []. by split; [|left]. }
  destruct (for_each bars on_bars_symbol st1) as [[r2 st2] ev2] eqn:E2.
  pose proof (symbol_loop_order _ _ _ _ _ E2) as Hord.
  apply symbol_loop in E2 as (_ & Hset & _).
  destruct r2 as [[]|e]; intros [= <- <- <-]; cbn [app].
  - split; [|exists ev2; split; [done|by right]].
    rewrite omap_app. cbn. by rewrite app_nil_r.
  - split; [done|]. exists ev2. by split; [|left].
  - split; [done|]. exists ev2. by split; [|left].
Qed.

(** X4.  A slice of distinct, known instruments, each warmed up once it has
    taken its bar and with an ATR to read, returns normally, and its calls
    are [set_target] calls followed by one [rebalance_portfolio] on the same
    slice and one [put_event]. *)
Theorem slice_runs_to_rebalance (v : variant) (bars : dict BarData) (st : self) :
  wf bars →
  (∀ s bar, (s, bar) ∈ bars →
     ∃ am, ams st !! s = Some am ∧ inited (update_bar am bar) = true ∧
           atr (update_bar am bar) (atr_window (settings st)) ≠ []) →
  ∃ (st' : self) calls,
    on_bars_of v bars st = (Ok tt, st', calls ++ [EvRebalance bars; EvPutEvent]) ∧
    Forall is_set_target calls.
Proof.
  intros Hwf Hready. rewrite on_bars_variant, on_bars_unfold.
  destruct (update_loop_ok bars st Hwf) as (st1 & E1 & Hin1 & _).
  { intros s bar Hin. destruct (Hready s bar Hin) as (am & -> & _). by eexists. }
  rewrite E1. pose proof (update_loop _ _ _ _ _ E1) as (_ & _ & Hst1).
  destruct (symbol_loop_ok bars st1) as (st2 & ev & E2).
  { intros s bar Hin. destruct (Hready s bar Hin) as (am & Ham & Hinit & Hatr).
    exists (update_bar am bar). rewrite Hst1 at 2. cbn. eauto. }
  rewrite E2. exists st2, ev. split; [done|].
  by apply symbol_loop in E2 as (_ & ? & _).
Qed.

(** A slice does not touch the strengths, the weights or the prices. *)
Lemma on_bars_keeps_weights (v : variant) (bars : dict BarData) (st st' : self) r ev :
  on_bars_of v bars st = (r, st', ev) →
  signal_strength st' = signal_strength st ∧
  unit_weights st' = unit_weights st ∧
  daily_prices st' = daily_prices st.
Proof.
  rewrite on_bars_variant, on_bars_unfold.
  destruct (for_each bars on_bars_update st) as [[r1 st1] ev1] eqn:E1.
  apply update_loop in E1 as (_ & _ & E1).
  assert (H1 : signal_strength st1 = signal_strength st ∧
               unit_weights st1 = unit_weights st ∧
               daily_prices st1 = daily_prices st) by (by rewrite E1).
  destruct r1 as [f|e]; [|by intros [= <- <- <-]].
  destruct (for_each bars on_bars_symbol st1) as [[r2 st2] ev2] eqn:E2.
  apply symbol_loop in E2 as (Hg2 & _ & _). injection Hg2 as _ _ _ _ _ ? ? ?.
  destruct H1 as (? & ? & ?).
  destruct r2 as [[]|e]; intros [= <- <- <-]; repeat split; congruence.
Qed.

(** X6.  However it ends, a slice changes none of the settings, the
    thresholds, the positions, the strengths, the weights and the prices,
    and for an instrument that is not in the slice it changes neither the
    indicator state nor any entry, and makes no call. *)
Theorem slice_frame (v : variant) (bars : dict BarData) (st st' : self) r ev :
  on_bars_of v bars st = (r, st', ev) →
  (settings st' = settings st ∧ rsi_buy st' = rsi_buy st ∧
   rsi_sell st' = rsi_sell st ∧ pos_data st' = pos_data st ∧
   signal_strength st' = signal_strength st ∧
   unit_weights st' = unit_weights st ∧
   daily_prices st' = daily_prices st) ∧
  (∀ s, s ∉ keys bars →
     ams st' !! s = ams st !! s ∧ locals s st' = locals s st ∧
     ∀ t, EvSetTarget s t ∉ ev).
Proof.
  intros Hrun. split.
  - destruct (on_bars_keeps _ _ _ _ _ _ Hrun) as (? & ? & ? & ?).
    destruct (on_bars_keeps_weights _ _ _ _ _ _ Hrun) as (? & ? & ?).
    done.
  - intros s Hs. destruct (slice_absent _ _ _ _ _ _ _ Hs Hrun) as [Hloc Hev].
    split; [|split; [done|by apply quiet_elem]].
    rewrite on_bars_variant in Hrun. rewrite (on_bars_ams _ _ _ _ _ Hrun).
    destruct (for_each bars on_bars_update st) as [[r1 st1] ev1] eqn:E1.
    by eapply update_loop_frame.
Qed.

(** X7.  In a slice that runs to its rebalance, an instrument with position
    0 has both extremes reset to the high and the low of its bar, whatever
    its indicators read. *)
Theorem flat_resets_extremes (v : variant) (bars : dict BarData) (st st' : self)
    r ev (s : string) (bar : BarData) :
  wf bars → (s, bar) ∈ bars →
  on_bars_of v bars st = (r, st', ev) →
  EvRebalance bars ∈ ev →
  get_pos st s = 0%Z →
  item (intra_trade_high st') s = high_price bar ∧
  item (intra_trade_low st') s = low_price bar.
Proof.
  intros Hwf Hin Hrun Hdone Hpos.
  destruct (slice_flat _ _ _ _ _ _ _ _ Hwf Hin Hrun Hpos)
    as [(_ & _ & Hno)|(Hh & Hl & _)]; [done|].
  by rewrite (item_lookup _ _ _ Hh), (item_lookup _ _ _ Hl).
Qed.

Lemma position_logic_fun (s : string) (b : BarData) (a ma x : Q)
    (st st1 st2 : self) (ev1 ev2 : list Event) :
  position_logic s b a ma x st st1 ev1 →
  position_logic s b a ma x st st2 ev2 →
  intra_trade_high st1 !! s = intra_trade_high st2 !! s ∧
  intra_trade_low st1 !! s = intra_trade_low st2 !! s ∧
  target_data st1 !! s = target_data st2 !! s ∧
  ev1 = ev2.
Proof.
  unfold position_logic, called, quiet.
  repeat match goal with
         | |- context [if ?c then _ else _] => destruct c
         end; cbn zeta; intros; destruct_and!; repeat split; congruence.
Qed.

(** X8.  What a slice that runs to its rebalance does for an instrument
    depends on that instrument's bar alone: two slices from the same state
    that give the instrument the same bar leave it the same indicator state
    and entries, and make the same calls for it, whatever else they hold. *)
Theorem instruments_do_not_interfere (v : variant) (bars1 bars2 : dict BarData)
    (st st1 st2 : self) r1 r2 ev1 ev2 (s : string) (bar : BarData) :
  wf bars1 → wf bars2 →
  (s, bar) ∈ bars1 → (s, bar) ∈ bars2 →
  on_bars_of v bars1 st = (r1, st1, ev1) →
  on_bars_of v bars2 st = (r2, st2, ev2) →
  EvRebalance bars1 ∈ ev1 → EvRebalance bars2 ∈ ev2 →
  ams st1 !! s = ams st2 !! s ∧
  locals s st1 = locals s st2 ∧
  filter (about s) ev1 = filter (about s) ev2.
Proof.
  intros Hwf1 Hwf2 Hin1 Hin2 Hrun1 Hrun2 Hdone1 Hdone2.
  assert (Hams : ∀ bars (st' : self) r ev,
            wf bars → (s, bar) ∈ bars → on_bars_of v bars st = (r, st', ev) →
            EvRebalance bars ∈ ev →
            ∃ am, ams st !! s = Some am ∧ ams st' !! s = Some (update_bar am bar)).
  { intros bars st' r ev Hwf Hin Hrun Hdone. rewrite on_bars_variant in Hrun.
    rewrite (on_bars_ams _ _ _ _ _ Hrun). revert Hrun. rewrite on_bars_unfold.
    destruct (for_each bars on_bars_update st) as [[[f|e] st0] ev0] eqn:E0.
    - intros _. by eapply update_loop_at.
    - apply update_loop in E0 as (-> & _ & _). intros [= <- <- <-].
      by apply elem_of_nil in Hdone. }
  destruct (Hams _ _ _ _ Hwf1 Hin1 Hrun1 Hdone1) as (am & Ham & Ham1).
  destruct (Hams _ _ _ _ Hwf2 Hin2 Hrun2 Hdone2) as (am' & Ham' & Ham2).
  assert (am' = am) as -> by congruence.
  split; [congruence|].
  destruct (slice_cases _ _ _ _ _ _ _ _ Hwf1 Hin1 Hrun1) as (_ & _ & _ & _ & Hc1).
  destruct (slice_cases _ _ _ _ _ _ _ _ Hwf2 Hin2 Hrun2) as (_ & _ & _ & _ & Hc2).
  destruct Hc1 as [(_ & _ & Hno)|(am1 & a1 & Hp1)]; [done|].
  destruct Hc2 as [(_ & _ & Hno)|(am2 & a2 & Hp2)]; [done|].
  cbn zeta in Hp1, Hp2.
  destruct Hp1 as (Hm1 & _ & Hl1 & Ha1 & Hma1 & Hx1 & Hlogic1).
  destruct Hp2 as (Hm2 & _ & Hl2 & Ha2 & Hma2 & Hx2 & Hlogic2).
  assert (am1 = update_bar am bar) as -> by congruence.
  assert (am2 = update_bar am bar) as -> by congruence.
  assert (a2 = a1) as -> by congruence.
  destruct (position_logic_fun _ _ _ _ _ _ _ _ _ _ Hlogic1 Hlogic2)
    as (Hh & Hlo & Ht & Hev).
  split; [|done]. unfold locals. by rewrite Ha1, Ha2, Hma1, Hma2, Hx1, Hx2, Hh, Hlo, Ht.
Qed.

(** X9.  With a trailing percent of at most 100, the long stop
    [intra_trade_high * (1 - trailing_percent / 100)] never decreases over
    consecutive slices and fills while the position is long; with one of at
    least -100 the short stop never increases while it is short. *)
Theorem stop_never_loosens (v : variant) (s : string) (st st' : self) :
  let tp := trailing_percent (settings st) in
  (held v true s st st' → tp <= 100 →
     item (intra_trade_high st) s * (1 - tp / 100)
       <= item (intra_trade_high st') s * (1 - tp / 100)) ∧
  (held v false s st st' → -100 <= tp →
     item (intra_trade_low st') s * (1 + tp / 100)
       <= item (intra_trade_low st) s * (1 + tp / 100)).
Proof.
  intros tp. split; intros Hheld Htp.
  - apply Qmult_le_compat_r.
    + induction Hheld as [st|bars st r st1 ev st2 Hwf Hpos Hrun _ IH|pos st st2 _ IH].
      * apply Qle_refl.
      * eapply Qle_trans; [by eapply slice_high_mono|].
        apply IH. by apply on_bars_keeps in Hrun as (-> & _).
      * by apply IH.
    + assert (E : 1 - tp / 100 == (100 - tp) * (1 # 100)) by field.
      rewrite E. apply Qmult_le_0_compat; [|done].
      unfold Qminus. rewrite <-(Qplus_opp_r tp). by apply Qplus_le_l.
  - apply Qmult_le_compat_r.
    + induction Hheld as [st|bars st r st1 ev st2 Hwf Hpos Hrun _ IH|pos st st2 _ IH].
      * apply Qle_refl.
      * eapply Qle_trans; [|by eapply slice_low_mono].
        apply IH. by apply on_bars_keeps in Hrun as (-> & _).
      * by apply IH.
    + assert (E : 1 + tp / 100 == (tp - -100) * (1 # 100)) by field.
      rewrite E. apply Qmult_le_0_compat; [|done].
      unfold Qminus. rewrite <-(Qplus_opp_r (-100)). by apply Qplus_le_l.
Qed.

(** X10.  Over consecutive slices that run to their rebalance while the
    position is long, [intra_trade_high] is the running [max] of its starting
    value and the highs of the bars seen, oldest first; while it is short,
    [intra_trade_low] is the running [min] of its starting value and the
    lows. *)
Theorem trailing_reference_is_running_extreme (v : variant) (s : string)
    (st st' : self) (seen : list BarData) :
  (trail v true s st seen st' →
     item (intra_trade_high st') s
       = foldl Py.max (item (intra_trade_high st) s) (high_price <$> seen)) ∧
  (trail v false s st seen st' →
     item (intra_trade_low st') s
       = foldl Py.min (item (intra_trade_low st) s) (low_price <$> seen)).
Proof.
  split.
  - induction 1 as [st|bars bar st r st1 ev seen st2 Hwf Hin Hpos Hrun Hdone _ IH
                    |pos st seen st2 _ IH]; [done| |done].
    cbn [fmap list_fmap foldl]. rewrite IH. f_equal.
    destruct (slice_long _ _ _ _ _ _ _ _ Hwf Hin Hrun Hpos)
      as [(_ & _ & Hno)|(Hh & _)]; [done|].
    by apply item_lookup.
  - induction 1 as [st|bars bar st r st1 ev seen st2 Hwf Hin Hpos Hrun Hdone _ IH
                    |pos st seen st2 _ IH]; [done| |done].
    cbn [fmap list_fmap foldl]. rewrite IH. f_equal.
    destruct (slice_short _ _ _ _ _ _ _ _ Hwf Hin Hrun Hpos)
      as [(_ & _ & Hno)|(Hl & _)]; [done|].
    by apply item_lookup.
Qed.

(** X11.  The thresholds [MeanReversionStrategy.on_init] sets outlive every
    slice and fill: [rsi_buy = 50 + rsi_entry] and [rsi_sell = 50 -
    rsi_entry], symmetric about 50. *)
Theorem thresholds_persist (v : variant) (st st' : self) :
  evolves v (MeanReversionStrategy.on_init st).1.2 st' →
  rsi_buy st' = 50 + rsi_entry (settings st) ∧
  rsi_sell st' = 50 - rsi_entry (settings st) ∧
  rsi_buy st' + rsi_sell st' == 100 ∧
  settings st' = settings st.
Proof.
  intros Hev.
  assert (Hinv : rsi_buy st' = 50 + rsi_entry (settings st) ∧
                 rsi_sell st' = 50 - rsi_entry (settings st) ∧
                 settings st' = settings st).
  { remember (MeanReversionStrategy.on_init st).1.2 as st0 eqn:E0.
    assert (H0 : rsi_buy st0 = 50 + rsi_entry (settings st) ∧
                 rsi_sell st0 = 50 - rsi_entry (settings st) ∧
                 settings st0 = settings st) by (by subst st0).
    clear E0. induction Hev as [st0|bars st0 r st1 ev st2 Hrun _ IH|pos st0 st2 _ IH].
    - done.
    - apply IH. apply on_bars_keeps in Hrun as (-> & -> & -> & _). done.
    - by apply IH. }
  destruct Hinv as (Hb & Hs & Hset). repeat (split; [done|]). split; [|done].
  rewrite Hb, Hs. ring.
Qed.
Lemma symbol_targets (s : string) (b : BarData) (st st' : self) r ev s' t :
  on_bars_symbol (s, b) st = (r, st', ev) →
  EvSetTarget s' t ∈ ev →
  s' = s ∧ allowed st s t.
Proof.
  intros H Hin. apply symbol_inv in H as (_ & _ & H).
  unfold position_logic, called, quiet, allowed in *.
  destruct (ams st !! s); [|by destruct H as (_ & _ & ->); apply elem_of_nil in Hin].
  destruct (inited _); [|by destruct H as (_ & _ & ->); apply elem_of_nil in Hin].
  destruct (last _); [|by destruct H as (_ & _ & ->); apply elem_of_nil in Hin].
  cbn zeta in H. destruct H as (_ & _ & _ & _ & H).
  destruct (get_pos st s =? 0)%Z eqn:Ez.
  - apply Z.eqb_eq in Ez. destruct H as (_ & _ & H).
    repeat match type of H with
           | if ?x then _ else _ => destruct x
           end;
      destruct H as [-> _];
      first [by apply elem_of_nil in Hin
            | apply list_elem_of_singleton in Hin; injection Hin as -> ->;
              split; [done|]; tauto ].
  - destruct (get_pos st s >? 0)%Z; destruct H as (_ & _ & H);
      repeat match type of H with
             | if ?x then _ else _ => destruct x
             end;
      destruct H as [-> _];
      first [by apply elem_of_nil in Hin
            | apply list_elem_of_singleton in Hin; injection Hin as -> ->;
              split; [done|by left] ].
Qed.

Lemma symbol_loop_targets (bars : dict BarData) (st st' : self) r ev s t :
  for_each bars on_bars_symbol st = (r, st', ev) →
  EvSetTarget s t ∈ ev →
  s ∈ keys bars ∧ allowed st s t.
Proof.
  revert st r st' ev. induction bars as [|[s0 b0] bars IH]; intros st r st' ev.
  - rewrite for_each_nil. intros [= <- <- <-] Hin. by apply elem_of_nil in Hin.
  - rewrite for_each_cons.
    destruct (on_bars_symbol (s0, b0) st) as [[r0 st0] ev0] eqn:E0.
    pose proof (symbol_targets _ _ _ _ _ _ s t E0) as H0.
    apply symbol_inv in E0 as (Hg & _ & _).
    assert (Hhead : EvSetTarget s t ∈ ev0 → s ∈ keys ((s0, b0) :: bars) ∧ allowed st s t).
    { intros Hin. destruct (H0 Hin) as [-> ?]. split; [left|done]. }
    destruct r0 as [[]|e].
    + destruct (for_each bars on_bars_symbol st0) as [[r1 st1] ev1] eqn:E1.
      intros [= <- <- <-] [Hin|Hin]%elem_of_app; [by apply Hhead|].
      destruct (IH _ _ _ _ E1 Hin) as [Hk Ha]. split; [by right|].
      unfold allowed, get_pos in *. unfold globals in Hg.
      injection Hg as Hset _ _ _ Hpos _ _ _. by rewrite <-Hset, <-Hpos.
    + intros [= <- <- <-]. exact Hhead.
    + intros [= <- <- <-]. exact Hhead.
Qed.

(** X21.  Every target a slice asks for is 0, or, for an instrument with
    position 0 only, plus or minus [fixed_size]: the strategy never asks
    for more than one unit of [fixed_size] in an instrument and never
    reverses an open position in one step. *)
Theorem targets_are_bounded (v : variant) (bars : dict BarData) (st st' : self)
    r ev s t :
  on_bars_of v bars st = (r, st', ev) →
  EvSetTarget s t ∈ ev →
  s ∈ keys bars ∧
  (t = 0%Z ∨
   (get_pos st s = 0%Z ∧
    (t = fixed_size (settings st) ∨ t = (- fixed_size (settings st))%Z))) ∧
  (Z.abs t <= Z.abs (fixed_size (settings st)))%Z.
Proof.
  rewrite on_bars_variant, on_bars_unfold.
  destruct (for_each bars on_bars_update st) as [[r1 st1] ev1] eqn:E1.
  apply update_loop in E1 as (-> & _ & Hst1).
  destruct r1 as [f|e].
  2:{ intros [= <- <- <-] Hin. by apply elem_of_nil in Hin. }
  destruct (for_each bars on_bars_symbol st1) as [[r2 st2] ev2] eqn:E2.
  assert (Hloop : EvSetTarget s t ∈ ev2 → s ∈ keys bars ∧ allowed st s t).
  { intros Hin. destruct (symbol_loop_targets _ _ _ _ _ s t E2 Hin) as [Hk Ha].
    split; [done|]. rewrite Hst1 in Ha. exact Ha. }
  assert (Hfin : EvSetTarget s t ∈ ev2 →
            s ∈ keys bars ∧ allowed st s t ∧
            (Z.abs t <= Z.abs (fixed_size (settings st)))%Z).
  { intros Hin. destruct (Hloop Hin) as [Hk Ha]. split; [done|]. split; [done|].
    destruct Ha as [->|[_ [->| ->]]]; lia. }
  destruct r2 as [[]|e]; intros [= <- <- <-]; cbn [app]; [|done|done].
  intros [Hin|Hin]%elem_of_app; [by apply Hfin|].
  apply elem_of_cons in Hin as [?|Hin]; [done|].
  by apply list_elem_of_singleton in Hin.
Qed.
End MoreSlices.

(** ** More on the unit weights *)

Section MoreWeights.
Context {AM S : Type}.
Local Abbreviation self := (Strategy AM S).
Import QuadProgStrategy StrategyTemplate.

(** The weights [calculate_unit_weights] computes, as a list. *)
Lemma calculate_unit_weights_ok (st : self) :
  wf (signal_strength st) →
  ¬ Py.sum (values (signal_strength st)) == 0 →
  calculate_unit_weights st =
    (Ok (prod_map id (λ x, x / Py.sum (values (signal_strength st)))
           <$> signal_strength st),
     with_unit_weights
       (prod_map id (λ x, x / Py.sum (values (signal_strength st)))
          <$> signal_strength st) st,
     []).
Proof.
  intros Hwf Hsum.
  assert (Ht : Qeq_bool (Py.sum (values (signal_strength st))) 0 = false).
  { destruct (Qeq_bool _ 0) eqn:E; [|done]. by apply Qeq_bool_iff in E. }
  rewrite calculate_unit_weights_unfold, weights_loop_nonzero by done. cbn.
  by rewrite (set_all (λ x, x / _) [] (signal_strength st)).
Qed.

Lemma sum_times (c : Q) (xs : list Q) :
  Py.sum ((λ x, c * x) <$> xs) == c * Py.sum xs.
Proof.
  induction xs as [|x xs IH].
  - unfold Py.sum; cbn. ring.
  - rewrite fmap_cons, !sum_cons, IH. ring.
Qed.

Lemma values_fmap {V W} (f : V → W) (d : dict V) :
  values (prod_map id f <$> d) = f <$> values d.
Proof.
  unfold values. rewrite <-!list_fmap_compose. apply list_fmap_ext. by intros ? [].
Qed.

Lemma keys_fmap {V W} (f : V → W) (d : dict V) :
  keys (prod_map id f <$> d) = keys d.
Proof.
  unfold keys. rewrite <-list_fmap_compose. apply list_fmap_ext. by intros ? [].
Qed.

(** X12.  The unit weights do not change when every strength is multiplied
    by the same nonzero factor. *)
Theorem unit_weights_scale_invariant (st : self) (c : Q) :
  wf (signal_strength st) →
  ¬ Py.sum (values (signal_strength st)) == 0 →
  ¬ c == 0 →
  ∃ w wc : dict Q,
    (calculate_unit_weights st).1.1 = Ok w ∧
    (calculate_unit_weights
       (with_signal_strength (prod_map id (λ x, c * x) <$> signal_strength st) st)).1.1
      = Ok wc ∧
    keys wc = keys w ∧
    Forall2 Qeq (values wc) (values w).
Proof.
  intros Hwf Hsum Hc.
  set (ss := signal_strength st) in *. set (t := Py.sum (values ss)) in *.
  set (stc := with_signal_strength (prod_map id (λ x, c * x) <$> ss) st).
  assert (Hss : signal_strength stc = prod_map id (λ x, c * x) <$> ss) by done.
  assert (Htc : Py.sum (values (signal_strength stc)) == c * t).
  { by rewrite Hss, values_fmap, sum_times. }
  do 2 eexists. split; [by rewrite calculate_unit_weights_ok|].
  split.
  { rewrite calculate_unit_weights_ok; [done|by unfold wf; rewrite Hss, keys_fmap|].
    rewrite Htc. intros [?|?]%Qmult_integral; done. }
  split; [by rewrite !keys_fmap, Hss, keys_fmap|].
  rewrite !values_fmap, Hss, values_fmap.
  rewrite <-list_fmap_compose. apply Forall2_fmap, Forall_Forall2_diag, Forall_forall.
  intros x _. unfold compose. rewrite sum_times. fold ss t. by field.
Qed.

(** X13.  A unit weight has the sign of its strength when the total
    strength is positive, and the opposite sign when the total is negative:
    with a negative total a short signal gets a positive weight. *)
Theorem unit_weight_signs (st : self) (w : dict Q) (vt_symbol : string) (strength x : Q) :
  wf (signal_strength st) →
  (calculate_unit_weights st).1.1 = Ok w →
  (vt_symbol, strength) ∈ signal_strength st →
  Py.get w vt_symbol = Some x →
  let total := Py.sum (values (signal_strength st)) in
  (0 < total → (0 < strength → 0 < x) ∧ (strength < 0 → x < 0)) ∧
  (total < 0 → (0 < strength → x < 0) ∧ (strength < 0 → 0 < x)).
Proof.
  intros Hwf Hw Hin Hx total.
  destruct (Qeq_bool total 0) eqn:Ht.
  { rewrite calculate_unit_weights_unfold in Hw. fold total in Hw.
    rewrite weights_loop_zero in Hw; [done|done|].
    intros E. rewrite E in Hin. by apply elem_of_nil in Hin. }
  assert (Hne : ¬ total == 0) by (by apply Qeq_bool_neq).
  rewrite calculate_unit_weights_ok in Hw by done. injection Hw as <-.
  assert (Hx' : Py.get (prod_map id (λ x, x / total) <$> signal_strength st) vt_symbol
                = Some (strength / total)).
  { apply get_elem_of; [unfold wf; by rewrite keys_fmap|].
    apply list_elem_of_fmap. by exists (vt_symbol, strength). }
  fold total in Hx. rewrite Hx' in Hx. injection Hx as <-.
  unfold Qdiv. split; intros Htot; split; intros Hs.
  - apply Qmult_lt_0_compat; [done|by apply Qinv_lt_0_compat].
  - rewrite <-(Qmult_0_l (/ total)). apply Qmult_lt_compat_r; [by apply Qinv_lt_0_compat|done].
  - setoid_replace (strength * / total) with (- (strength * / - total))
      using relation Qeq by (by field).
    rewrite <-(Qopp_involutive 0). apply Qopp_lt_compat.
    apply Qmult_lt_0_compat; [done|]. apply Qinv_lt_0_compat.
    by apply (Qopp_lt_compat total 0).
  - setoid_replace (strength * / total) with ((- strength) * / - total)
      using relation Qeq by (by field).
    apply Qmult_lt_0_compat; [by apply (Qopp_lt_compat strength 0)|].
    apply Qinv_lt_0_compat. by apply (Qopp_lt_compat total 0).
Qed.

(** X14.  When no strength is negative, every unit weight
    [calculate_unit_weights] returns lies between 0 and 1. *)
Theorem unit_weights_are_fractions (st : self) (w : dict Q) :
  wf (signal_strength st) →
  (calculate_unit_weights st).1.1 = Ok w →
  Forall (λ x, 0 <= x) (values (signal_strength st)) →
  Forall (λ x, 0 <= x ∧ x <= 1) (values w).
Proof.
  intros Hwf Hw Hpos.
  set (total := Py.sum (values (signal_strength st))) in *.
  destruct (decide (signal_strength st = [])) as [Ess|Ess].
  { rewrite calculate_unit_weights_unfold, Ess, for_each_nil in Hw.
    injection Hw as <-. constructor. }
  destruct (Qeq_bool total 0) eqn:Ht.
  { rewrite calculate_unit_weights_unfold in Hw. fold total in Hw.
    rewrite weights_loop_zero in Hw; done. }
  assert (Hne : ¬ total == 0) by (by apply Qeq_bool_neq).
  rewrite calculate_unit_weights_ok in Hw by done. injection Hw as <-.
  fold total. rewrite values_fmap.
  assert (Hsum : ∀ xs, Forall (λ x, 0 <= x) xs →
            0 <= Py.sum xs ∧ Forall (λ x, x <= Py.sum xs) xs).
  { induction 1 as [|x xs Hx _ [IH1 IH2]].
    - split; [apply Qle_refl|constructor].
    - split.
      + rewrite sum_cons. rewrite <-(Qplus_0_l 0). by apply Qplus_le_compat.
      + constructor.
        * rewrite sum_cons. rewrite <-(Qplus_0_r x) at 1. by apply Qplus_le_r.
        * eapply Forall_impl; [exact IH2|]. intros y Hy. cbn in Hy.
          rewrite sum_cons. eapply Qle_trans; [exact Hy|].
          rewrite <-(Qplus_0_l (Py.sum xs)) at 1. by apply Qplus_le_l. }
  destruct (Hsum _ Hpos) as [Htot Hle]. fold total in Htot, Hle.
  assert (Hlt : 0 < total).
  { apply Qle_lteq in Htot as [?|E]; [done|]. by symmetry in E. }
  apply Forall_fmap, Forall_forall. intros x Hx. cbn.
  rewrite Forall_forall in Hpos, Hle. split.
  - apply Qle_shift_div_l; [done|]. rewrite Qmult_0_l. by apply Hpos.
  - apply Qle_shift_div_r; [done|]. rewrite Qmult_1_l. by apply Hle.
Qed.
End MoreWeights.

(** ** The risk estimate and the constructor *)

Section MoreMethods.
Context {AM S F : Type} `{!ArrayManager AM} `{!NewArrayManager AM} `{!Pandas S F}.
Local Abbreviation self := (Strategy AM S).
Import StrategyTemplate.

Lemma portfolio_return_list_pure (l : dict Q) (st : self) :
  (QuadProgStrategy.portfolio_return_list l st).1.2 = st ∧
  (QuadProgStrategy.portfolio_return_list l st).2 = [].
Proof.
  induction l as [|[k x] l IH]; [done|].
  cbn [QuadProgStrategy.portfolio_return_list].
  unfold mbind, M_bind, read, index. cbn.
  destruct (daily_prices st !! k); cbn; [|done].
  destruct (Py.get (unit_weights st) k); cbn; [|done].
  unfold mbind, M_bind in IH.
  destruct (QuadProgStrategy.portfolio_return_list l st) as [[[] ?] ?]; cbn in *;
    destruct IH as [-> ->]; done.
Qed.

(** X15.  [calculate_unit_var] of either class, whether it returns or
    raises, leaves the strategy as it was and makes no call. *)
Theorem unit_var_reads_only (st : self) :
  (QuadProgStrategy.calculate_unit_var st).1.2 = st ∧
  (QuadProgStrategy.calculate_unit_var st).2 = [] ∧
  (MeanReversionStrategy.calculate_unit_var (F:=F) st).1.2 = st ∧
  (MeanReversionStrategy.calculate_unit_var (F:=F) st).2 = [].
Proof.
  split; [|split; [|by rewrite mean_reversion_unit_var]].
  - unfold QuadProgStrategy.calculate_unit_var, mbind, M_bind, read. cbn.
    destruct (portfolio_return_list_pure (signal_strength st) st) as [H1 H2].
    destruct (QuadProgStrategy.portfolio_return_list _ st) as [[[l|e] st1] ev1];
      cbn in *; subst; [|done].
    destruct (concat_sum l); cbn; [|done].
    by destruct (ewm_std_last _ _).
  - unfold QuadProgStrategy.calculate_unit_var, mbind, M_bind, read. cbn.
    destruct (portfolio_return_list_pure (signal_strength st) st) as [H1 H2].
    destruct (QuadProgStrategy.portfolio_return_list _ st) as [[[l|e] st1] ev1];
      cbn in *; subst; [|done].
    destruct (concat_sum l); cbn; [|done].
    by destruct (ewm_std_last _ _).
Qed.

Lemma portfolio_return_list_app (pre post : dict Q) (st : self) (series : list S) :
  Forall2 (weighted st) pre series →
  QuadProgStrategy.portfolio_return_list (pre ++ post) st =
    match QuadProgStrategy.portfolio_return_list post st with
    | (Ok l, st', ev) => (Ok (series ++ l), st', ev)
    | other => other
    end.
Proof.
  induction 1 as [|[k x] sr l series (prices & w & Hp & Hw & ->) _ IH].
  - cbn [app]. by destruct (QuadProgStrategy.portfolio_return_list post st) as [[[] ?] ?].
  - cbn in Hp, Hw. cbn [app QuadProgStrategy.portfolio_return_list].
    unfold mbind, M_bind, read, index. cbn. rewrite Hp. cbn. rewrite Hw. cbn.
    unfold mbind, M_bind in IH. rewrite IH.
    destruct (QuadProgStrategy.portfolio_return_list post st) as [[[] ?] ?];
      cbn; by rewrite ?app_nil_r.
Qed.

(** X16.  [QuadProgStrategy.calculate_unit_var] raises [KeyError] for the
    first instrument of [signal_strength], in its order, that has no price
    series or no unit weight. *)
Theorem unit_var_missing_data (st : self) (pre post : dict Q) (k : string)
    (x : Q) (series : list S) :
  signal_strength st = pre ++ (k, x) :: post →
  Forall2 (weighted st) pre series →
  daily_prices st !! k = None ∨ Py.get (unit_weights st) k = None →
  QuadProgStrategy.calculate_unit_var st = (Raise (KeyError k), st, []).
Proof.
  intros Hss Hpre Hmiss.
  unfold QuadProgStrategy.calculate_unit_var, mbind, M_bind, read. cbn.
  rewrite Hss, (portfolio_return_list_app _ _ _ _ Hpre).
  cbn [QuadProgStrategy.portfolio_return_list].
  unfold mbind, M_bind, read, index. cbn.
  destruct (daily_prices st !! k) as [p|]; cbn; [|done].
  destruct Hmiss as [?|Hw]; [done|]. by rewrite Hw.
Qed.

(** X17.  [calculate_unit_weights] followed by [calculate_unit_var]: when
    the strengths do not sum to zero and every instrument has a price
    series, the estimate is the statistic of the sum of the price series,
    each scaled by strength over total strength; no weight is missing. *)
Theorem weights_then_var (st : self) (series : list S) (combined : S) (x : F) :
  wf (signal_strength st) →
  ¬ Py.sum (values (signal_strength st)) == 0 →
  Forall2 (λ p sr, ∃ prices,
             daily_prices st !! p.1 = Some prices ∧
             sr = scale prices (p.2 / Py.sum (values (signal_strength st))))
          (signal_strength st) series →
  concat_sum series = Some combined →
  ewm_std_last (lookback_var (settings st)) combined = Some x →
  (QuadProgStrategy.calculate_unit_weights ;; QuadProgStrategy.calculate_unit_var) st
    = (Ok x,
       with_unit_weights
         (prod_map id (λ y, y / Py.sum (values (signal_strength st)))
            <$> signal_strength st) st,
       []).
Proof.
  intros Hwf Hsum Hseries Hc Hx.
  set (t := Py.sum (values (signal_strength st))) in *.
  set (w := prod_map id (λ y, y / t) <$> signal_strength st).
  unfold mbind at 1. unfold M_bind.
  rewrite calculate_unit_weights_ok by done. fold t w.
  rewrite (quadprog_unit_var (with_unit_weights w st) series combined x); [done| |done|done].
  change (signal_strength (with_unit_weights w st)) with (signal_strength st).
  assert (Hgen : ∀ l sers,
            Forall2 (λ p sr, ∃ prices,
                       daily_prices st !! p.1 = Some prices ∧
                       sr = scale prices (p.2 / t)) l sers →
            (∀ p, p ∈ l → p ∈ signal_strength st) →
            Forall2 (weighted (with_unit_weights w st)) l sers).
  { induction 1 as [|[k y] sr l sers (prices & Hp & ->) _ IH]; intros Hall;
      constructor.
    - exists prices, (y / t). split; [exact Hp|]. split; [|reflexivity].
      change (Py.get w k = Some (y / t)).
      apply get_elem_of; [unfold wf, w; by rewrite keys_fmap|].
      apply list_elem_of_fmap. exists (k, y). split; [done|]. apply Hall. left.
    - apply IH. intros p Hp'. apply Hall. by right. }
  by apply Hgen.
Qed.

Lemma new_managers (names : list string) (st : self) :
  for_each names QuadProgStrategy.new_manager st =
    (Ok Continue,
     with_ams (foldl (λ m s, <[s := new_array_manager]> m) (ams st) names) st,
     []).
Proof.
  revert st. induction names as [|s names IH]; intros st.
  - rewrite for_each_nil. by destruct st.
  - rewrite for_each_cons.
    unfold QuadProgStrategy.new_manager at 1, mbind, M_bind, modify. cbn.
    by rewrite IH.
Qed.

Lemma new_managers_lookup (names : list string) (m : gmap string AM) (s : string) :
  foldl (λ m s, <[s := new_array_manager]> m) m names !! s =
    if decide (s ∈ names) then Some new_array_manager else m !! s.
Proof.
  revert m. induction names as [|s0 names IH]; intros m; cbn.
  - by rewrite decide_False by apply not_elem_of_nil.
  - rewrite IH. destruct (decide (s ∈ names)) as [Hin|Hout].
    + rewrite decide_True; [done|by right].
    + destruct (decide (s = s0)) as [->|Hne].
      * rewrite lookup_insert_eq. rewrite decide_True; [done|left].
      * rewrite lookup_insert_ne by done. rewrite decide_False; [done|].
        by intros [?|?]%elem_of_cons.
Qed.

Lemma init_of_ams (v : variant) (st : self) (s : string) :
  (init_of v st).1.1 = Ok tt ∧ (init_of v st).2 = [] ∧
  ams (init_of v st).1.2 !! s =
    (if decide (s ∈ vt_symbols (settings st)) then Some new_array_manager else None) ∧
  signal_strength (init_of v st).1.2 = [] ∧
  settings (init_of v st).1.2 = settings st ∧
  pos_data (init_of v st).1.2 = pos_data st ∧
  target_data (init_of v st).1.2 = target_data st.
Proof.
  destruct v; cbn [init_of].
  - unfold QuadProgStrategy.__init__, mbind, M_bind, modify, read. cbn.
    rewrite new_managers. cbn. rewrite new_managers_lookup.
    by rewrite lookup_empty.
  - unfold MeanReversionStrategy.__init__, mbind, M_bind, modify, read. cbn.
    change (@MeanReversionStrategy.new_manager AM S _) with
      (@QuadProgStrategy.new_manager AM S _).
    rewrite new_managers. cbn. rewrite new_managers_lookup.
    by rewrite lookup_empty.
Qed.

(** The first loop keeps every known instrument known. *)
Lemma update_loop_known (bars : dict BarData) (st st1 : self) r ev s :
  for_each bars QuadProgStrategy.on_bars_update st = (r, st1, ev) →
  is_Some (ams st !! s) ↔ is_Some (ams st1 !! s).
Proof.
  revert st. induction bars as [|[s0 b0] bars IH]; intros st.
  - rewrite for_each_nil. by intros [= <- <- <-].
  - rewrite for_each_cons.
    destruct (QuadProgStrategy.on_bars_update (s0, b0) st) as [[r0 st0] ev0] eqn:E0.
    apply update_inv in E0 as [-> E0].
    destruct (ams st !! s0) as [am|] eqn:Eam; destruct E0 as [-> ->].
    + destruct (for_each bars _ _) as [[r1 st2] ev1] eqn:E1.
      intros [= <- <- <-]. rewrite <-(IH _ E1). cbn.
      destruct (decide (s0 = s)) as [<-|Hne].
      * rewrite lookup_insert_eq, Eam. split; by eexists.
      * by rewrite lookup_insert_ne.
    + by intros [= <- <- <-].
Qed.

Lemma update_loop_key_error (bars : dict BarData) (st st1 : self) k ev :
  for_each bars QuadProgStrategy.on_bars_update st = (Raise (KeyError k), st1, ev) →
  k ∈ keys bars ∧ ams st !! k = None.
Proof.
  revert st. induction bars as [|[s0 b0] bars IH]; intros st.
  - by rewrite for_each_nil.
  - rewrite for_each_cons.
    destruct (QuadProgStrategy.on_bars_update (s0, b0) st) as [[r0 st0] ev0] eqn:E0.
    pose proof (update_loop_known [(s0, b0)] st st0 r0 ev0 k) as Hknown.
    rewrite for_each_cons, E0, for_each_nil in Hknown.
    apply update_inv in E0 as [-> E0].
    destruct (ams st !! s0) as [am|] eqn:Eam; destruct E0 as [-> ->].
    + destruct (for_each bars _ _) as [[r1 st2] ev1] eqn:E1.
      intros [= -> <- <-]. destruct (IH _ E1) as [Hin Hnone].
      split; [by right|]. specialize (Hknown eq_refl).
      destruct (ams st !! k) eqn:Ek; [|done].
      destruct Hknown as [[x Hx] _]; [by eexists|]. congruence.
    + intros [= <- <- <-]. split; [left|done].
Qed.

Lemma symbol_loop_key_error (bars : dict BarData) (st st' : self) k ev :
  for_each bars QuadProgStrategy.on_bars_symbol st = (Raise (KeyError k), st', ev) →
  k ∈ keys bars ∧ ams st !! k = None.
Proof.
  revert st ev. induction bars as [|[s0 b0] bars IH]; intros st ev.
  - by rewrite for_each_nil.
  - rewrite for_each_cons.
    destruct (QuadProgStrategy.on_bars_symbol (s0, b0) st) as [[r0 st0] ev0] eqn:E0.
    apply symbol_inv in E0 as (Hg0 & _ & Hbody).
    destruct r0 as [[]|e].
    + destruct (for_each bars _ st0) as [[r1 st1] ev1] eqn:E1.
      intros [= -> <- <-]. destruct (IH _ _ E1) as [Hin Hnone].
      split; [by right|]. injection Hg0 as _ _ _ Ha _ _ _ _. by rewrite <-Ha.
    + by intros [= <- <- <-].
    + intros [= -> <- <-].
      destruct (ams st !! s0) as [am|] eqn:Eam.
      * destruct (inited am); [|by destruct Hbody].
        destruct (last _); by destruct Hbody.
      * destruct Hbody as ([= <-] & _). split; [left|done].
Qed.

(** Where the first loop succeeds, every instrument of the slice is known. *)
Lemma update_loop_all_known (bars : dict BarData) (st st1 : self) f ev s b :
  for_each bars QuadProgStrategy.on_bars_update st = (Ok f, st1, ev) →
  (s, b) ∈ bars → is_Some (ams st !! s).
Proof.
  revert st. induction bars as [|[s0 b0] bars IH]; intros st Hrun Hin.
  { by apply elem_of_nil in Hin. }
  pose proof (update_loop_known [(s0, b0)] st) as Hstep.
  rewrite for_each_cons in Hrun, Hstep.
  destruct (QuadProgStrategy.on_bars_update (s0, b0) st) as [[r0 st0] ev0] eqn:E0.
  apply update_inv in E0 as [-> E0].
  destruct (ams st !! s0) as [am|] eqn:Eam; destruct E0 as [-> ->]; [|done].
  destruct (for_each bars _ _) as [[r3 st3] ev3] eqn:E3.
  injection Hrun as -> <- <-.
  apply elem_of_cons in Hin as [[= -> ->]|Hin]; [by eexists|].
  rewrite for_each_nil in Hstep. apply (Hstep _ _ _ s eq_refl). by eapply IH.
Qed.

(** A slice raises [KeyError] only for an instrument it does not know, and
    only from its first loop. *)
Lemma on_bars_key_error (v : variant) (bars : dict BarData) (st st' : self) k ev :
  on_bars_of v bars st = (Raise (KeyError k), st', ev) →
  k ∈ keys bars ∧ ams st !! k = None ∧
  for_each bars QuadProgStrategy.on_bars_update st = (Raise (KeyError k), st', ev).
Proof.
  rewrite on_bars_variant, on_bars_unfold.
  destruct (for_each bars QuadProgStrategy.on_bars_update st)
    as [[r1 st1] ev1] eqn:E1.
  destruct r1 as [f|e].
  - destruct (for_each bars QuadProgStrategy.on_bars_symbol st1)
      as [[r2 st2] ev2] eqn:E2.
    destruct r2 as [[]|e]; intros [= -> <- <-].
    apply symbol_loop_key_error in E2 as [Hin Hnone]. exfalso.
    apply list_elem_of_fmap in Hin as ([s b] & -> & Hin). cbn in Hnone.
    apply (update_loop_all_known _ _ _ _ _ _ _ E1) in Hin.
    apply (update_loop_known _ _ _ _ _ s E1) in Hin.
    rewrite Hnone in Hin. by destruct Hin.
  - intros [= -> <- <-]. by apply update_loop_key_error in E1 as [? ?].
Qed.

(** X19.  The constructor of either class leaves exactly one new
    [ArrayManager] per configured instrument and an empty [signal_strength];
    a slice over configured instruments then never raises [KeyError]. *)
Theorem constructor_knows_instruments (v v' : variant) (st : self)
    (bars : dict BarData) :
  let st0 := (init_of v st).1.2 in
  (∀ s, ams st0 !! s =
          if decide (s ∈ vt_symbols (settings st))
          then Some new_array_manager else None) ∧
  signal_strength st0 = [] ∧
  (keys bars ⊆ vt_symbols (settings st) →
   ∀ k, (on_bars_of v' bars st0).1.1 ≠ Raise (KeyError k)).
Proof.
  intros st0. split; [|split].
  - intros s. by destruct (init_of_ams v st s) as (_ & _ & ? & _).
  - by destruct (init_of_ams v st "") as (_ & _ & _ & ? & _).
  - intros Hsub k Hk.
    destruct (on_bars_of v' bars st0) as [[r st'] ev] eqn:Hrun. cbn in Hk. subst r.
    apply on_bars_key_error in Hrun as (Hin & Hnone & _).
    destruct (init_of_ams v st k) as (_ & _ & Hams & _). fold st0 in Hams.
    rewrite Hnone in Hams. rewrite decide_True in Hams; [done|]. by apply Hsub.
Qed.

(** X20.  No method of [QuadProgStrategy] assigns [signal_strength] or
    [daily_prices]: on an object that only the constructor, the methods of
    the class and fills have acted on, they and [unit_weights] are empty,
    [calculate_unit_weights] returns the empty dictionary without raising,
    and [calculate_unit_var] raises [ValueError] where [pd.concat] refuses
    an empty list of series. *)
Theorem weighting_is_never_fed (st : self) :
  reachable (F:=F) st →
  signal_strength st = [] ∧ unit_weights st = [] ∧ daily_prices st = ∅ ∧
  QuadProgStrategy.calculate_unit_weights st = (Ok [], st, []) ∧
  (concat_sum (S:=S) (F:=F) [] = None →
   QuadProgStrategy.calculate_unit_var (F:=F) st = (Raise ValueError, st, [])).
Proof.
  intros Hreach.
  assert (Hempty : signal_strength st = [] ∧ unit_weights st = [] ∧
                   daily_prices st = ∅).
  { induction Hreach as [st|st _ IH|st _ IH|st _ IH|st bars _ IH|st bars _ IH
                         |st _ IH|st _ IH|st pos _ IH].
    - unfold QuadProgStrategy.__init__, mbind, M_bind, modify, read. cbn.
      by rewrite new_managers.
    - by rewrite quadprog_on_init.
    - done.
    - done.
    - destruct (QuadProgStrategy.on_bars bars st) as [[r st'] ev] eqn:Hrun.
      apply (on_bars_keeps_weights QuadProg) in Hrun as (E1 & E2 & E3).
      cbn [fst snd]. by rewrite E1, E2, E3.
    - done.
    - destruct IH as (Hs & Hu & Hd).
      rewrite calculate_unit_weights_unfold, Hs, for_each_nil. by cbn.
    - destruct IH as (Hs & Hu & Hd).
      unfold QuadProgStrategy.calculate_unit_var, mbind, M_bind, read. cbn.
      rewrite Hs. cbn. destruct (concat_sum []); cbn; [|done].
      by destruct (ewm_std_last _ _).
    - done. }
  destruct Hempty as (Hs & Hu & Hd). repeat (split; [done|]). split.
  - rewrite calculate_unit_weights_unfold, Hs, for_each_nil. cbn.
    rewrite <-Hu. by destruct st.
  - intros Hconcat.
    unfold QuadProgStrategy.calculate_unit_var, mbind, M_bind, read. cbn.
    rewrite Hs. cbn. by rewrite Hconcat.
Qed.
End MoreMethods.

(** ** The theorems at work on concrete slices *)

Section Runs.
Import Replay Examples StrategyTemplate.

(** [on_init] of [MeanReversionStrategy] overwrites both thresholds: the
    started object does not depend on what they were. *)
Lemma started_any (buy sell : Q) (tapes : gmap string tape) :
  (MeanReversionStrategy.on_init (fresh buy sell tapes)).1.2 = started tapes.
Proof. reflexivity. Qed.

(** Case analysis on the entries of a concrete slice. *)
Ltac each_entry :=
  let s := fresh "s" in
  let b := fresh "b" in
  let Hin := fresh "Hin" in
  intros s b Hin; cbn [app] in Hin;
  repeat (apply elem_of_cons in Hin as [Hin|Hin]; [injection Hin as -> ->|]);
  [..|by apply elem_of_nil in Hin].

(** A known instrument of a concrete slice, and one that is warmed up. *)
Ltac known := vm_compute; eexists; reflexivity.
Ltac warm am :=
  exists am; split; [vm_compute; reflexivity|];
  split; [vm_compute; reflexivity|vm_compute; discriminate].



(** A is flat with a hot ATR and an RSI of 70, above the threshold of 66
    that [on_init] has set; B, iterated after it, is not warmed up and stops
    the slice before its rebalance.  A gets its long entry all the same. *)
Lemma entry_signal_witness :
  let run := on_bars_of MeanReversion (slice_AB bar_100) (started pair_tapes) in
  calls run = [EvSetTarget "A" 1] ∧
  (∀ t, EvSetTarget "A" t ∈ calls run ↔ t = 1%Z) ∧
  get_target (after run) "A" = 1%Z.
Proof.
  intros run.
  destruct (entry_signal MeanReversion [] [("B", bar_100)] "A" bar_100
              (started pair_tapes) (after run) run.1.1 (calls run)) as [_ Hinit].
  - split; [apply (bool_decide_unpack _); vm_compute; reflexivity|].
    split; each_entry; [known|known|warm (tape_of [hot])].
  - vm_compute. reflexivity.
  - vm_compute. reflexivity.
  - vm_compute. reflexivity.
  - destruct (Hinit (fresh 50 50 pair_tapes)) as [(Hbuy & _) _]; [apply evolves_refl|].
    split; [vm_compute; reflexivity|]. apply Hbuy. vm_compute. reflexivity.
Defined.

(** C3 (as stated) fails.  A is held long; a first slice processes it,
    leaves its ATR (2), ATR moving average (5/4) and RSI (70) on record and
    calls its exit, which is filled: A is flat with target 0.  The next slice
    holds B, which is not warmed up, before A: the slice returns at B.  A is
    flat, its ATR exceeds its moving average and its RSI is above the buy
    threshold (66), on record and in its indicator state alike, and it gets
    no call and no target. *)
Lemma entry_skipped_behind_cold :
  let st0 := holding hot_twice_cold 1 110 100 in
  let st := with_pos_data {["A" := 0%Z]}
              (after (on_bars_of MeanReversion (slice_A bar_109) st0)) in
  let run := on_bars_of MeanReversion (slice_BA bar_100) st in
  get_pos st "A" = 0%Z ∧ get_target st "A" = 0%Z ∧
  (rsi_buy st, rsi_sell st) = (50 + 16, 50 - 16) ∧
  gt (item (atr_data (after run)) "A") (item (atr_ma (after run)) "A") = true ∧
  item (rsi_data (after run)) "A" = 70 ∧
  (am ← ams (after run) !! "A";
   Some (inited am, last (atr am 22),
         gt 2 (mean (tail_slice 10 (atr am 22))), rsi am 5))
    = Some (true, Some 2, true, 70) ∧
  run.1.1 = Ok tt ∧
  calls run = [] ∧
  get_target (after run) "A" = 0%Z ∧
  fixed_size (settings st) = 1%Z.
Proof. vm_compute. repeat split; reflexivity. Qed.

(** Second slice of a tape that turns calm: no call, the target stays. *)
Lemma gate_blocks_entry_witness :
  let st1 := after (on_bars_of MeanReversion (slice_A bar_100) (started hot_calm_tape)) in
  let run := on_bars_of MeanReversion (slice_A bar_100) st1 in
  (∀ t, EvSetTarget "A" t ∉ calls run) ∧
  get_target (after run) "A" = get_target st1 "A".
Proof.
  intros st1 run.
  destruct (gate_blocks_entry MeanReversion (slice_A bar_100) st1
              (after run) run.1.1 (calls run) "A" bar_100) as (Hev & Ht & _).
  - apply (bool_decide_unpack _). vm_compute. reflexivity.
  - left.
  - vm_compute. reflexivity.
  - vm_compute. reflexivity.
  - vm_compute. discriminate.
  - split; [exact Hev|exact Ht].
Defined.

(** C4 (as stated) fails: the first slice sets the target of A to 1; the
    order is not filled, so the position is still 0 when the second slice
    arrives with a calm ATR; the target is then left at 1, not at 0. *)
Lemma pending_entry_survives_gate :
  let st1 := after (on_bars_of MeanReversion (slice_A bar_100) (started hot_calm_tape)) in
  let st2 := after (on_bars_of MeanReversion (slice_A bar_100) st1) in
  get_pos st1 "A" = 0%Z ∧
  item (atr_data st2) "A" <= item (atr_ma st2) "A" ∧
  get_target st2 "A" = 1%Z ∧
  get_target st2 "A" ≠ 0%Z.
Proof. vm_compute. repeat split; discriminate. Qed.

(** Long, high of the trade 110, trailing percent 0.8, close 109: the stop is
    at 109.12 and the exit is called, although B, iterated after A, is not
    warmed up and stops the slice before its rebalance. *)
Lemma trailing_stop_iff_witness :
  let st := holding pair_tapes 1 110 100 in
  let run := on_bars_of QuadProg (slice_AB bar_109) st in
  item (intra_trade_high (after run)) "A" = 110 ∧
  110 * (1 - (8 # 10) / 100) == 10912 # 100 ∧
  calls run = [EvSetTarget "A" 0] ∧
  get_target (after run) "A" = 0%Z.
Proof.
  intros st run.
  destruct (trailing_stop_iff QuadProg [] [("B", bar_109)] "A" bar_109 st
              (after run) run.1.1 (calls run)) as (Hlong & _).
  - split; [apply (bool_decide_unpack _); vm_compute; reflexivity|].
    split; each_entry; [known|known|warm (tape_of [hot])].
  - vm_compute. reflexivity.
  - destruct Hlong as [Hiff Ht]; [vm_compute; reflexivity|].
    assert (Hcall : EvSetTarget "A" 0 ∈ calls run).
    { apply Hiff. vm_compute. discriminate. }
    split; [vm_compute; reflexivity|]. split; [vm_compute; reflexivity|].
    split; [vm_compute; reflexivity|exact (Ht Hcall)].
Defined.

(** C5 (as stated) fails: A is held long with a high of 110, and the bar
    closes at 109, below the stop of 109.12; but B, which is not warmed up,
    is iterated first: the slice returns at B, no exit is called and the
    target of A stays at 1. *)
Lemma stop_skipped_behind_cold :
  let st := holding pair_tapes 1 110 100 in
  let run := on_bars_of QuadProg (slice_BA bar_109) st in
  get_pos st "A" = 1%Z ∧
  item (intra_trade_high st) "A" = 110 ∧
  Py.max 110 (high_price bar_109) = 110 ∧
  item (intra_trade_high (after run)) "A" = 110 ∧
  le (close_price bar_109) (110 * (1 - trailing_percent (settings st) / 100)) = true ∧
  run.1.1 = Ok tt ∧
  calls run = [] ∧
  get_target (after run) "A" = 1%Z.
Proof. vm_compute. repeat split; reflexivity. Qed.



Lemma open_position_only_exits_witness :
  let st := holding calm_tape 1 110 100 in
  let run := on_bars_of QuadProg (slice_A bar_109) st in
  (∀ t, EvSetTarget "A" t ∈ calls run →
     t = 0%Z ∧ ∃ bar, (("A" : string), bar) ∈ slice_A bar_109 ∧ stop_hit "A" bar st (after run)) ∧
  (target_data (after run) !! "A" = target_data st !! "A"
   ∨ target_data (after run) !! "A" = Some 0%Z) ∧
  (target_data (after run) !! "A" ≠ target_data st !! "A" →
   EvSetTarget "A" 0 ∈ calls run).
Proof.
  intros st run.
  apply (open_position_only_exits QuadProg (slice_A bar_109) st
           (after run) run.1.1 (calls run) "A").
  - apply (bool_decide_unpack _). vm_compute. reflexivity.
  - vm_compute. reflexivity.
  - vm_compute. discriminate.
Defined.

(** Long, and the bar closes above the stop: no call. *)
Lemma no_call_leaves_target_witness :
  let st := holding calm_tape 1 110 100 in
  let run := on_bars_of QuadProg (slice_A bar_hold) st in
  (∀ t, EvSetTarget "A" t ∉ calls run) ∧
  target_data (after run) !! "A" = target_data st !! "A".
Proof.
  intros st run.
  destruct (no_call_leaves_target QuadProg (slice_A bar_hold) st
              (after run) run.1.1 (calls run) "A" bar_hold) as [_ Hquiet].
  - apply (bool_decide_unpack _). vm_compute. reflexivity.
  - left.
  - vm_compute. reflexivity.
  - apply Hquiet. right. split; [vm_compute; discriminate|].
    intros [[_ Hhit]|[Hshort _]].
    + vm_compute in Hhit. apply Hhit. reflexivity.
    + vm_compute in Hshort. discriminate.
Defined.


End Runs.

(** ** The further properties at work *)

Section MoreRuns.
Import Replay Examples StrategyTemplate.

Lemma unknown_instrument_witness :
  let run := on_bars_of MeanReversion (slice_AC bar_100) (started hot_tape) in
  run.1.1 = Raise (KeyError "C") ∧ calls run = [] ∧
  ams (after run) !! "A" = Some (update_bar (tape_of [hot]) bar_100).
Proof.
  intros run.
  destruct (unknown_instrument MeanReversion (slice_A bar_100) [] "C" bar_100
              (started hot_tape)) as (st' & Hrun & _ & Hupd & _).
  - apply (bool_decide_unpack _). vm_compute. reflexivity.
  - intros s b Hin. apply list_elem_of_singleton in Hin. injection Hin as -> ->.
    vm_compute. eexists. reflexivity.
  - vm_compute. reflexivity.
  - unfold run. change (slice_AC bar_100) with (slice_A bar_100 ++ [("C", bar_100)]).
    rewrite Hrun. split; [reflexivity|]. split; [reflexivity|].
    apply (Hupd "A" bar_100); [left|vm_compute; reflexivity].
Defined.

Lemma indicators_updated_witness :
  let run := on_bars_of MeanReversion (slice_AB bar_100) (started pair_tapes) in
  ams (after run) !! "A" = Some (update_bar (tape_of [hot]) bar_100) ∧
  ams (after run) !! "B" = Some (update_bar (tape_of [cold]) bar_100).
Proof.
  intros run.
  destruct (indicators_updated MeanReversion (slice_AB bar_100)
              (started pair_tapes) (after run) run.1.1 (calls run)) as [Hupd _].
  - apply (bool_decide_unpack _). vm_compute. reflexivity.
  - intros s b Hin. apply elem_of_cons in Hin as [Hin|Hin].
    + injection Hin as -> ->. vm_compute. eexists. reflexivity.
    + apply list_elem_of_singleton in Hin. injection Hin as -> ->.
      vm_compute. eexists. reflexivity.
  - vm_compute. reflexivity.
  - split.
    + apply (Hupd "A" bar_100); [left|vm_compute; reflexivity].
    + apply (Hupd "B" bar_100); [right; left|vm_compute; reflexivity].
Defined.

Lemma slice_runs_to_rebalance_witness :
  ∃ st' calls,
    on_bars_of MeanReversion (slice_A bar_100) (started hot_tape)
      = (Ok tt, st', calls ++ [EvRebalance (slice_A bar_100); EvPutEvent]) ∧
    Forall is_set_target calls.
Proof.
  apply (slice_runs_to_rebalance MeanReversion (slice_A bar_100) (started hot_tape)).
  - apply (bool_decide_unpack _). vm_compute. reflexivity.
  - intros s b Hin. apply list_elem_of_singleton in Hin. injection Hin as -> ->.
    exists (tape_of [hot]). split; [vm_compute; reflexivity|].
    split; [vm_compute; reflexivity|]. vm_compute. discriminate.
Defined.

Lemma calls_follow_slice_witness :
  let run := on_bars_of MeanReversion (slice_AB bar_100) (started both_hot) in
  omap callee (calls run) `sublist_of` ["A"; "B"].
Proof.
  intros run.
  apply (calls_follow_slice MeanReversion (slice_AB bar_100) (started both_hot)
           (after run) run.1.1 (calls run)).
  vm_compute. reflexivity.
Defined.

Lemma slice_frame_witness :
  let run := on_bars_of MeanReversion (slice_A bar_100) (started both_hot) in
  ams (after run) !! "B" = ams (started both_hot) !! "B" ∧
  locals "B" (after run) = locals "B" (started both_hot) ∧
  ∀ t, EvSetTarget "B" t ∉ calls run.
Proof.
  intros run.
  destruct (slice_frame MeanReversion (slice_A bar_100) (started both_hot)
              (after run) run.1.1 (calls run)) as [_ Hout].
  - vm_compute. reflexivity.
  - apply Hout. vm_compute. intros H. inversion H as [|? ? ? H']. inversion H'.
Defined.

Lemma flat_resets_extremes_witness :
  let run := on_bars_of MeanReversion (slice_A bar_100) (started hot_tape) in
  item (intra_trade_high (after run)) "A" = 101 ∧
  item (intra_trade_low (after run)) "A" = 99.
Proof.
  intros run.
  apply (flat_resets_extremes MeanReversion (slice_A bar_100) (started hot_tape)
           (after run) run.1.1 (calls run) "A" bar_100).
  - apply (bool_decide_unpack _). vm_compute. reflexivity.
  - left.
  - vm_compute. reflexivity.
  - vm_compute. right. left.
  - vm_compute. reflexivity.
Defined.

Lemma instruments_do_not_interfere_witness :
  let run1 := on_bars_of MeanReversion (slice_A bar_100) (started both_hot) in
  let run2 := on_bars_of MeanReversion (slice_AB bar_100) (started both_hot) in
  ams (after run1) !! "A" = ams (after run2) !! "A" ∧
  locals "A" (after run1) = locals "A" (after run2) ∧
  filter (about "A") (calls run1) = filter (about "A") (calls run2).
Proof.
  intros run1 run2.
  apply (instruments_do_not_interfere MeanReversion (slice_A bar_100)
           (slice_AB bar_100) (started both_hot) (after run1) (after run2)
           run1.1.1 run2.1.1 (calls run1) (calls run2) "A" bar_100).
  - apply (bool_decide_unpack _). vm_compute. reflexivity.
  - apply (bool_decide_unpack _). vm_compute. reflexivity.
  - left.
  - left.
  - vm_compute. reflexivity.
  - vm_compute. reflexivity.
  - vm_compute. right. left.
  - vm_compute. right. right. left.
Defined.

Lemma stop_never_loosens_witness :
  let st := holding calm_tape 1 110 100 in
  let run := on_bars_of QuadProg (slice_A bar_hold) st in
  item (intra_trade_high st) "A" * (1 - (8 # 10) / 100)
    <= item (intra_trade_high (after run)) "A" * (1 - (8 # 10) / 100).
Proof.
  intros st run.
  destruct (stop_never_loosens QuadProg "A" st (after run)) as [Hlong _].
  apply Hlong.
  - apply (held_slice QuadProg true "A" (slice_A bar_hold) st run.1.1 (after run)
             (calls run) (after run)).
    + apply (bool_decide_unpack _). vm_compute. reflexivity.
    + vm_compute. reflexivity.
    + vm_compute. reflexivity.
    + apply held_refl.
  - vm_compute. discriminate.
Defined.

Lemma trailing_reference_is_running_extreme_witness :
  let st := holding calm_tape 1 110 100 in
  let run := on_bars_of QuadProg (slice_A bar_hold) st in
  item (intra_trade_high (after run)) "A" = Py.max 110 111.
Proof.
  intros st run.
  destruct (trailing_reference_is_running_extreme QuadProg "A" st (after run)
              [bar_hold]) as [Hlong _].
  apply Hlong.
  apply (trail_slice QuadProg true "A" (slice_A bar_hold) bar_hold st run.1.1
           (after run) (calls run) [] (after run)).
  - apply (bool_decide_unpack _). vm_compute. reflexivity.
  - left.
  - vm_compute. reflexivity.
  - vm_compute. reflexivity.
  - vm_compute. left.
  - apply trail_nil.
Defined.

Lemma thresholds_persist_witness :
  let st := fresh 50 50 hot_tape in
  let run := on_bars_of MeanReversion (slice_A bar_100) (started hot_tape) in
  rsi_buy (after run) = 50 + 16 ∧ rsi_sell (after run) = 50 - 16 ∧
  rsi_buy (after run) + rsi_sell (after run) == 100 ∧
  settings (after run) = sample_settings.
Proof.
  intros st run.
  apply (thresholds_persist MeanReversion st (after run)).
  apply (evolves_slice MeanReversion (slice_A bar_100) _ run.1.1 (after run)
           (calls run) (after run)).
  - vm_compute. reflexivity.
  - apply evolves_refl.
Defined.

(** The entry of the flat instrument A asks for [fixed_size]. *)
Lemma targets_are_bounded_witness :
  let run := on_bars_of MeanReversion (slice_A bar_100) (started hot_tape) in
  EvSetTarget "A" 1 ∈ calls run ∧ (Z.abs 1 <= Z.abs 1)%Z.
Proof.
  intros run.
  assert (Hin : EvSetTarget "A" 1 ∈ calls run) by (vm_compute; left).
  split; [exact Hin|].
  destruct (targets_are_bounded MeanReversion (slice_A bar_100) (started hot_tape)
              (after run) run.1.1 (calls run) "A" 1) as (_ & _ & Hle).
  - vm_compute. reflexivity.
  - exact Hin.
  - exact Hle.
Defined.

(** Strengths 1 and 3 doubled: the weights are those of 1 and 3. *)
Lemma unit_weights_scale_invariant_witness :
  ∃ w wc : dict Q,
    (QuadProgStrategy.calculate_unit_weights one_three).1.1 = Ok w ∧
    (QuadProgStrategy.calculate_unit_weights
       (with_signal_strength
          (prod_map id (λ x, 2 * x) <$> signal_strength one_three) one_three)).1.1
      = Ok wc ∧
    keys wc = keys w ∧ Forall2 Qeq (values wc) (values w).
Proof.
  apply (unit_weights_scale_invariant one_three 2).
  - apply (bool_decide_unpack _). vm_compute. reflexivity.
  - vm_compute. discriminate.
  - vm_compute. discriminate.
Defined.

(** Two short signals: the total is negative and the weight of A positive. *)
Lemma unit_weight_signs_witness :
  let w := [("A", (-1) / (-4)); ("B", (-3) / (-4))] in
  (QuadProgStrategy.calculate_unit_weights two_shorts).1.1 = Ok w ∧
  Py.get w "A" = Some ((-1) / (-4)) ∧ 0 < (-1) / (-4).
Proof.
  intros w.
  assert (Hw : (QuadProgStrategy.calculate_unit_weights two_shorts).1.1 = Ok w).
  { vm_compute. reflexivity. }
  assert (Hx : Py.get w "A" = Some ((-1) / (-4))).
  { vm_compute. reflexivity. }
  split; [exact Hw|]. split; [exact Hx|].
  destruct (unit_weight_signs two_shorts w "A" (-1) ((-1) / (-4))) as [_ Hneg].
  - apply (bool_decide_unpack _). vm_compute. reflexivity.
  - exact Hw.
  - left.
  - exact Hx.
  - apply Hneg; vm_compute; reflexivity.
Defined.

(** Strengths 1 and 3: the weights are a quarter and three quarters. *)
Lemma unit_weights_are_fractions_witness :
  let w := [("A", 1 / 4); ("B", 3 / 4)] in
  (QuadProgStrategy.calculate_unit_weights one_three).1.1 = Ok w ∧
  Forall (λ x, 0 <= x ∧ x <= 1) (values w).
Proof.
  intros w.
  assert (Hw : (QuadProgStrategy.calculate_unit_weights one_three).1.1 = Ok w).
  { vm_compute. reflexivity. }
  split; [exact Hw|].
  apply (unit_weights_are_fractions one_three).
  - apply (bool_decide_unpack _). vm_compute. reflexivity.
  - exact Hw.
  - repeat constructor; vm_compute; discriminate.
Defined.

(** The prices of B are missing: the [KeyError] names B. *)
Lemma unit_var_missing_data_witness :
  QuadProgStrategy.calculate_unit_var half_priced
    = (Raise (KeyError "B"), half_priced, []).
Proof.
  apply (unit_var_missing_data half_priced [("A", 1)] [] "B" 3
           [scale [100; 104] (1 # 4)]).
  - vm_compute. reflexivity.
  - constructor; [|constructor].
    exists [100; 104], (1 # 4). repeat split; vm_compute; reflexivity.
  - left. vm_compute. reflexivity.
Defined.

Lemma weights_then_var_witness :
  let st := with_unit_weights [] priced in
  (QuadProgStrategy.calculate_unit_weights ;; QuadProgStrategy.calculate_unit_var) st
    = (Ok (EwmStdLast 20 [100 * (1 / 4) + 40 * (3 / 4); 104 * (1 / 4) + 44 * (3 / 4)]),
       with_unit_weights [("A", 1 / 4); ("B", 3 / 4)] st, []).
Proof.
  intros st.
  apply (weights_then_var st
           [scale [100; 104] (1 / 4); scale [40; 44] (3 / 4)]
           (add_rows (scale [100; 104] (1 / 4)) (scale [40; 44] (3 / 4)))).
  - apply (bool_decide_unpack _). vm_compute. reflexivity.
  - vm_compute. discriminate.
  - constructor; [|constructor; [|constructor]].
    + exists [100; 104]. split; vm_compute; reflexivity.
    + exists [40; 44]. split; vm_compute; reflexivity.
  - vm_compute. reflexivity.
  - vm_compute. reflexivity.
Defined.

Lemma constructor_knows_instruments_witness :
  let st0 := (init_of QuadProg (fresh 50 50 ∅)).1.2 in
  ams st0 !! "A" = Some new_array_manager ∧
  (on_bars_of MeanReversion (slice_AB bar_100) st0).1.1 ≠ Raise (KeyError "A").
Proof.
  intros st0.
  destruct (constructor_knows_instruments QuadProg MeanReversion (fresh 50 50 ∅)
              (slice_AB bar_100)) as (Hams & _ & Hok).
  split.
  - subst st0. rewrite (Hams "A"). vm_compute. reflexivity.
  - apply Hok. vm_compute. intros s Hs. exact Hs.
Defined.

Lemma weighting_is_never_fed_witness :
  let st := (QuadProgStrategy.on_bars (slice_A bar_100)
               (QuadProgStrategy.__init__ (fresh 50 50 ∅)).1.2).1.2 in
  QuadProgStrategy.calculate_unit_weights st = (Ok [], st, []) ∧
  QuadProgStrategy.calculate_unit_var st = (Raise ValueError, st, []).
Proof.
  intros st.
  destruct (weighting_is_never_fed (F:=statistic) st) as (_ & _ & _ & Hw & Hv).
  - apply reach_on_bars, reach_init.
  - split; [exact Hw|]. apply Hv. reflexivity.
Defined.
End MoreRuns.
